(** * Car Advisor backend: the functions of [main.py], embedded and verified

    - Python [float]s are IEEE-754 binary64 values.  They are modelled by
      Rocq's primitive floats, whose [+ - * /] and comparisons are the same
      correctly rounded operations.  [round(x, 2)] is computed from the
      exact value of [x]; [**] follows CPython's [float_pow] and leaves the
      C library's [pow] as a parameter.
    - An [int] that meets a [float] in an operation is converted to the
      float of the same value; the integer constants of [main.py] (12, 100,
      5, 1500000, 2000000) are all exactly representable.
    - A Python [str] is a sequence of Unicode code points.  [str.lower]
      follows CPython: ASCII characters are folded by the fixed rule, the
      capital sigma by its context, and every other character by the
      Unicode character database of the running Python, which is a
      parameter.
    - Exceptions are results: a function that can raise returns an
      [outcome].
    - [cars_data], a module-level list that is loaded once and never
      written, is an argument of the functions that read it. *)

From Stdlib Require Import ZArith NArith List String Ascii Bool Lia.
From Stdlib Require Import Floats.
Import ListNotations.

Set Warnings "-inexact-float".

(* ================================================================== *)
(** ** Python strings *)

Module PyStr.
Open Scope N_scope.

(** A [str]: its code points, in order. *)
Definition pystr : Set := list N.

(** The [str] of an ASCII literal of [main.py]. *)
Definition text (literal : string) : pystr :=
  map N_of_ascii (list_ascii_of_string literal).

(** [a == b] on two [str]. *)
Fixpoint str_eqb (a b : pystr) : bool :=
  match a, b with
  | [], [] => true
  | x :: a', y :: b' => (x =? y) && str_eqb a' b'
  | _, _ => false
  end.

(** [s.startswith(p)] *)
Fixpoint starts_with (p s : pystr) : bool :=
  match p, s with
  | [], _ => true
  | _ :: _, [] => false
  | a :: p', b :: s' => (a =? b) && starts_with p' s'
  end.

(** [needle in hay]: [needle] occurs in [hay] as a contiguous substring. *)
Fixpoint str_in (needle hay : pystr) : bool :=
  starts_with needle hay
  || match hay with
     | [] => false
     | _ :: t => str_in needle t
     end.

(** [s.replace(a, b)] for one-character [a] and [b]. *)
Definition replace_char (a b : N) (s : pystr) : pystr :=
  map (fun c => if c =? a then b else c) s.

(** [any(word in text for word in words)] *)
Definition any_in (words : list pystr) (text : pystr) : bool :=
  existsb (fun word => str_in word text) words.

(** *** [str.lower] *)

(** What [str.lower] reads in the Unicode character database for a
    character outside ASCII: its full lower-case mapping and the properties
    Cased and Case_Ignorable. *)
Record ucd : Set := {
  to_lower_full : N -> list N;
  is_cased : N -> bool;
  is_case_ignorable : N -> bool
}.

(** The lower-case mapping of an ASCII character: [A]..[Z] to [a]..[z]. *)
Definition ascii_lower (c : N) : N :=
  if (65 <=? c) && (c <=? 90) then c + 32 else c.

(** GREEK CAPITAL LETTER SIGMA, and the two small letters it can become. *)
Definition capital_sigma : N := 0x3A3.
Definition small_sigma : N := 0x3C3.
Definition final_sigma : N := 0x3C2.

Section Lower.
Variable db : ucd.

Definition lower_full (c : N) : list N :=
  if c <? 128 then [ascii_lower c] else to_lower_full db c.

(** The ASCII characters with the property Cased are the letters. *)
Definition cased (c : N) : bool :=
  if c <? 128
  then ((65 <=? c) && (c <=? 90)) || ((97 <=? c) && (c <=? 122))
  else is_cased db c.

(** The ASCII characters with the property Case_Ignorable are the
    apostrophe, the full stop, the colon, the circumflex and the grave
    accent. *)
Definition case_ignorable (c : N) : bool :=
  if c <? 128
  then existsb (N.eqb c) [39; 46; 58; 94; 96]
  else is_case_ignorable db c.

(** The second half of CPython's [handle_capital_sigma]: after the case-
    ignorable characters that follow, the string ends or goes on with a
    character that is not cased. *)
Fixpoint ends_word (rest : pystr) : bool :=
  match rest with
  | [] => true
  | d :: rest' =>
      if case_ignorable d then ends_word rest' else negb (cased d)
  end.

(** CPython's [do_lower], left to right.  [cased_before] holds when the
    nearest character to the left that is not case-ignorable exists and is
    cased, which is the first half of [handle_capital_sigma]; a capital
    sigma becomes the final sigma when both halves hold. *)
Fixpoint lower_from (cased_before : bool) (s : pystr) : pystr :=
  match s with
  | [] => []
  | c :: rest =>
      (if c =? capital_sigma
       then [if cased_before && ends_word rest then final_sigma
             else small_sigma]
       else lower_full c)
      ++ lower_from (if case_ignorable c then cased_before else cased c) rest
  end.

(** [s.lower()] *)
Definition lower (s : pystr) : pystr := lower_from false s.
End Lower.
End PyStr.

(* ================================================================== *)
(** ** Intent detection (needs no arithmetic) *)

Module Intent.
Import PyStr.

Definition emi_words : list pystr :=
  map text ["emi"; "loan"; "finance"; "monthly"; "emi"]%string.
Definition budget_words : list pystr :=
  map text ["budget"; "lakhs"; "crore"; "price under"]%string.
Definition compare_words : list pystr :=
  map text ["compare"; "vs"; "versus"]%string.
Definition search_words : list pystr :=
  map text ["find"; "show"; "which"]%string.

Section WithUcd.
Variable db : ucd.

Definition detect_intent (query : pystr) : pystr :=
  let query_lower := lower db query in
  if any_in emi_words query_lower then text "emi_calculation"
  else if any_in budget_words query_lower then text "budget_search"
  else if any_in compare_words query_lower then text "car_comparison"
  else if any_in search_words query_lower then text "car_search"
  else text "general_info".
End WithUcd.
End Intent.

(* ================================================================== *)
(** ** Python floats: the operations of CPython that are not IEEE primitives *)

Module PyFloat.
Open Scope float_scope.

(** Exceptions the modelled code can end in.  [ComplexArithmeticError]
    stands for the path on which [**] yields a [complex]: the arithmetic
    on it is not modelled; Python ends that path with an exception
    ([round] rejects a complex number) and never with a result. *)
Inductive py_error : Set :=
| ZeroDivisionError
| OverflowError
| ValueError
| ComplexArithmeticError.

Inductive outcome (A : Type) : Type :=
| Returns (a : A)
| Raises (e : py_error).
Arguments Returns {A} a.
Arguments Raises {A} e.

Definition bind {A B : Type} (m : outcome A) (k : A -> outcome B) : outcome B :=
  match m with
  | Returns a => k a
  | Raises e => Raises e
  end.

(** [a / b] on floats raises when the divisor compares equal to zero. *)
Definition py_div (a b : float) : outcome float :=
  if b =? 0 then Raises ZeroDivisionError else Returns (a / b).

(** *** Exact values and correct rounding *)

(** The binary64 value nearest to the rational [num / den], ties to even.
    The quotient is computed to at least 65 bits and its remainder kept
    as a sticky last bit, so that rounding it to 53 bits rounds the
    rational itself. *)
Definition nearest_binary64 (negative : bool) (num den : positive) : float :=
  let k := Z.max 0 (65 + Z.log2 (Zpos den) - Z.log2 (Zpos num)) in
  let scaled := (Zpos num * 2 ^ k)%Z in
  let q := (scaled / Zpos den)%Z in
  let sticky := if (scaled mod Zpos den =? 0)%Z then 0%Z else 1%Z in
  let m := (2 * q + sticky)%Z in
  SF2Prim (binary_normalize prec emax (if negative then (- m)%Z else m) (- k - 1) false).

(** [a / b] rounded to the nearest integer, ties to the even one ([0 < b]). *)
Definition div_half_even (a b : Z) : Z :=
  let q := (a / b)%Z in
  match (2 * (a mod b) ?= b)%Z with
  | Lt => q
  | Gt => (q + 1)%Z
  | Eq => if Z.even q then q else (q + 1)%Z
  end.

(** The number of hundredths nearest to the exact value [m * 2^e]. *)
Definition hundredths (m : positive) (e : Z) : Z :=
  match e with
  | Zneg k => div_half_even (100 * Zpos m) (2 ^ Zpos k)
  | _ => (100 * Zpos m * 2 ^ e)%Z
  end.

(** [round(x, 2)]: infinities and NaN round to themselves; a finite [x] is
    rounded, from its exact value and ties to even, to two decimals, and
    that decimal is converted to the nearest float.  The sign of [x] is
    kept, also on a zero result. *)
Definition round2 (x : float) : float :=
  match Prim2SF x with
  | S754_finite s m e =>
      match hundredths m e with
      | Zpos h => nearest_binary64 s h 100
      | _ => if s then neg_zero else zero
      end
  | _ => x
  end.

(** *** Exponentiation *)

(** The integer a finite float is equal to, if any. *)
Definition integer_value (x : float) : option Z :=
  match Prim2SF x with
  | S754_zero _ => Some 0%Z
  | S754_finite s m e =>
      let signed (z : Z) := if s then (- z)%Z else z in
      match e with
      | Zneg k =>
          if (Zpos m mod 2 ^ Zpos k =? 0)%Z
          then Some (signed (Zpos m / 2 ^ Zpos k)%Z) else None
      | _ => Some (signed (Zpos m * 2 ^ e)%Z)
      end
  | _ => None
  end.

(** C's [floor(x) == x] on a finite [x]. *)
Definition is_integer (x : float) : bool :=
  match integer_value x with Some _ => true | None => false end.

(** CPython's [DOUBLE_IS_ODD_INTEGER]: [fmod(fabs(x), 2.0) == 1.0]. *)
Definition is_odd_integer (x : float) : bool :=
  match integer_value x with Some z => Z.odd z | None => false end.

(** The C library's [errno] after a call of [pow]. *)
Inductive c_errno : Set := ENONE | ERANGE | EDOM.

(** CPython's [_Py_ADJUST_ERANGE1]: an infinite result counts as a range
    error, an underflow to zero does not. *)
Definition adjust_erange1 (x : float) (errno : c_errno) : c_errno :=
  match errno with
  | ENONE => if is_infinity x then ERANGE else ENONE
  | ERANGE => if x =? 0 then ENONE else ERANGE
  | EDOM => EDOM
  end.

(** What [x ** y] evaluates to on two floats. *)
Inductive pow_result : Set :=
| PowFloat (x : float)
| PowComplex
| PowRaises (e : py_error).

Section Pow.
(** The C library's [pow], which CPython calls on the operands its own
    special cases leave over; it returns a value and sets [errno]. *)
Variable libm_pow : float -> float -> float * c_errno.

(** [iv ** iw], following CPython's [float_pow]. *)
Definition py_pow (iv iw : float) : pow_result :=
  if iw =? 0 then PowFloat 1
  else if is_nan iv then PowFloat iv
  else if is_nan iw then PowFloat (if iv =? 1 then 1 else iw)
  else if is_infinity iw then
    let av := abs iv in
    if av =? 1 then PowFloat 1
    else if Bool.eqb (0 <? iw) (1 <? av) then PowFloat (abs iw)
    else PowFloat 0
  else if is_infinity iv then
    let odd := is_odd_integer iw in
    if 0 <? iw then PowFloat (if odd then iv else abs iv)
    else PowFloat (if odd then (if get_sign iv then neg_zero else zero) else 0)
  else if iv =? 0 then
    if iw <? 0 then PowRaises ZeroDivisionError
    else PowFloat (if is_odd_integer iw then iv else 0)
  else
    let negative := iv <? 0 in
    if negative && negb (is_integer iw) then PowComplex
    else
      let av := if negative then - iv else iv in
      let negate_result := negative && is_odd_integer iw in
      if av =? 1 then PowFloat (if negate_result then -1 else 1)
      else
        let (ix, errno) := libm_pow av iw in
        let errno' := adjust_erange1 ix errno in
        let ix' := if negate_result then - ix else ix in
        match errno' with
        | ENONE => PowFloat ix'
        | ERANGE => PowRaises OverflowError
        | EDOM => PowRaises ValueError
        end.
End Pow.

(** The correctly rounded power [x ^ n] of a positive finite [x], computed
    from the exact value of [x]. *)
Definition pow_rn (x : float) (n : Z) : float :=
  match Prim2SF x with
  | S754_finite false m e =>
      SF2Prim (binary_normalize prec emax (Zpos m ^ n) (e * n) false)
  | _ => nan
  end.

(** A [pow] that is correctly rounded on natural exponents (and reports a
    domain error elsewhere): an instance of the C library's function. *)
Definition reference_pow (x y : float) : float * c_errno :=
  match integer_value y with
  | Some n => if (0 <=? n)%Z then (pow_rn x n, ENONE) else (nan, EDOM)
  | None => (nan, EDOM)
  end.

(** [pow x y], for [y] a natural number, is free of error and at most one
    unit in the last place away from the correctly rounded power. *)
Definition pow_within_ulp (libm_pow : float -> float -> float * c_errno)
    (x y : float) : Prop :=
  match integer_value y with
  | Some n =>
      let c := pow_rn x n in
      snd (libm_pow x y) = ENONE
      /\ (fst (libm_pow x y) = next_down c
          \/ fst (libm_pow x y) = c
          \/ fst (libm_pow x y) = next_up c)
  | None => False
  end.
End PyFloat.

(* ================================================================== *)
(** ** The data model and the functions of [main.py] *)

Module CarAdvisor.
Import PyStr PyFloat Intent.
Open Scope string_scope.
Open Scope list_scope.
Open Scope float_scope.

(** One object of [data/cars.json] (the fields of [CarSpecs]).  A JSON
    integer below [2^53] is the float of the same value, and Python
    compares an [int] with a [float] by value. *)
Record CarRecord : Set := {
  name : pystr;
  price : float;
  fuel_type : pystr;
  seating_capacity : Z;
  safety_rating : pystr;
  model_year : Z
}.

(** [class UserQuery(BaseModel)] *)
Record UserQuery : Set := {
  query : pystr;
  user_income : option float;
  max_budget : option float
}.

(** The dictionary [calculate_emi] returns. *)
Record EMIResult : Set := {
  emi_amount : float;
  total_payment : float;
  total_interest : float
}.

(** The message texts; an f-string is kept with the values it formats. *)
Inductive Message : Set :=
| IncomeNotProvided               (* "Income not provided - Skipping safety check" *)
| SafeEMI (emi max_emi : float)   (* f"Safe EMI ({emi_amount} <= {max_emi:.0f})" *)
| RiskyEMI (emi max_emi : float)  (* f"Risky EMI ({emi_amount} > {max_emi:.0f})" *)
| BudgetSearchCompleted           (* "Budget search completed" *)
| ComparisonReady                 (* "Comparison ready" *)
| CarFound                        (* "Car found" *)
| GeneralInfo.                    (* "General info" *)

(** The dictionary [{"approved": ..., "message": ...}]. *)
Record Verdict : Set := {
  approved : bool;
  message : Message
}.

(** [tool_result], one shape per branch of [process_user_query]. *)
Inductive ToolOutput : Set :=
| ToolEMI (r : EMIResult)
| ToolCars (cars : list CarRecord)
| ToolMessage (text : pystr)
| ToolCar (car : option CarRecord)
| ToolCount (cars_count : nat).

(** The dictionary [process_user_query] returns. *)
Record QueryResult : Set := {
  intent : pystr;
  user_query : pystr;
  tool_output : ToolOutput;
  safety_check : Verdict;
  recommended_action : pystr
}.

(** [x or default] on an [Optional[float]]: [None] and a zero of either
    sign are falsy, every other float (NaN too) is truthy. *)
Definition or_default (x : option float) (default : float) : float :=
  match x with
  | None => default
  | Some b => if b =? 0 then default else b
  end.

Section WithLibm.
Variable libm_pow : float -> float -> float * c_errno.

(** Both occurrences of [(1 + monthly_rate)**tenure_months] evaluate to
    the same thing; the quotient is [(p * r * a) / (a - 1)], left to
    right. *)
Definition compound_emi (principal monthly_rate tenure_months : float)
    : outcome float :=
  match py_pow libm_pow (1 + monthly_rate) tenure_months with
  | PowFloat a => py_div (principal * monthly_rate * a) (a - 1)
  | PowComplex => Raises ComplexArithmeticError
  | PowRaises e => Raises e
  end.

(** The installment before rounding. *)
Definition unrounded_emi (principal annual_rate tenure_years : float)
    : outcome float :=
  let monthly_rate := annual_rate / 12 / 100 in
  let tenure_months := tenure_years * 12 in
  if monthly_rate =? 0 then py_div principal tenure_months
  else compound_emi principal monthly_rate tenure_months.

Definition calculate_emi (principal annual_rate tenure_years : float)
    : outcome EMIResult :=
  let tenure_months := tenure_years * 12 in
  bind (unrounded_emi principal annual_rate tenure_years) (fun emi =>
  let total := emi * tenure_months in
  Returns {| emi_amount := round2 emi;
             total_payment := round2 total;
             total_interest := round2 (total - principal) |}).
End WithLibm.

Definition apply_safety_rules (emi : float) (income : option float) : Verdict :=
  match income with
  | None => {| approved := true; message := IncomeNotProvided |}
  | Some user_income =>
      let max_emi := (user_income / 12) * 0.3 in
      if emi <=? max_emi
      then {| approved := true; message := SafeEMI emi max_emi |}
      else {| approved := false; message := RiskyEMI emi max_emi |}
  end.

Section WithCatalog.
(** The Unicode database of the running Python. *)
Variable db : ucd.

(** [cars_data], the list loaded from [data/cars.json] at start-up. *)
Variable cars_data : list CarRecord.

(** The loop of [get_car_by_name] over the records still to visit. *)
Fixpoint first_named (lowered : pystr) (cars : list CarRecord)
    : option CarRecord :=
  match cars with
  | [] => None
  | car :: rest =>
      if str_in lowered (lower db (name car)) then Some car
      else first_named lowered rest
  end.

Definition get_car_by_name (name : pystr) : option CarRecord :=
  first_named (lower db name) cars_data.

Definition get_cars_by_budget (max_price : float) : list CarRecord :=
  filter (fun car => price car <=? max_price) cars_data.

Variable libm_pow : float -> float -> float * c_errno.

(** The call [calculate_emi(principal, 9.5, 5)] passes the integer [5],
    and [principal] may be the integer [1500000]: Python converts them,
    and [5 * 12], to the floats of the same value in every operation. *)
Definition process_user_query (query_data : UserQuery) : outcome QueryResult :=
  let intent := detect_intent db (query query_data) in
  bind
    (if str_eqb intent (text "emi_calculation") then
       let principal := or_default (max_budget query_data) 1500000 in
       bind (calculate_emi libm_pow principal 9.5 5) (fun tool_result =>
       Returns (ToolEMI tool_result,
                apply_safety_rules (emi_amount tool_result)
                                   (user_income query_data)))
     else if str_eqb intent (text "budget_search") then
       Returns (ToolCars (get_cars_by_budget
                            (or_default (max_budget query_data) 2000000)),
                {| approved := true; message := BudgetSearchCompleted |})
     else if str_eqb intent (text "car_comparison") then
       Returns (ToolMessage (text "Comparison feature coming in Day 4"),
                {| approved := true; message := ComparisonReady |})
     else if str_eqb intent (text "car_search") then
       Returns (ToolCar (get_car_by_name (query query_data)),
                {| approved := true; message := CarFound |})
     else
       Returns (ToolCount (List.length cars_data),
                {| approved := true; message := GeneralInfo |}))
    (fun '(tool_result, safety_result) =>
       Returns {| intent := intent;
                  user_query := query query_data;
                  tool_output := tool_result;
                  safety_check := safety_result;
                  recommended_action :=
                    text "Processed "
                    ++ replace_char (N_of_ascii "_") (N_of_ascii " ") intent
                    ++ text " successfully" |}).
End WithCatalog.
End CarAdvisor.

(* ================================================================== *)
(** ** Notions the properties are stated with *)

Module Spec.
Import PyStr PyFloat CarAdvisor.
Open Scope string_scope.
Open Scope list_scope.

(** Two characters are the same letter in either case: they are equal, or
    one is a capital [A]..[Z] and the other the small letter 32 places
    further. *)
Definition same_letter (c d : N) : Prop :=
  c = d
  \/ ((65 <= c <= 90)%N /\ d = (c + 32)%N)
  \/ ((65 <= d <= 90)%N /\ c = (d + 32)%N).

(** Two texts that differ in the case of the letters A-Z at most. *)
Definition same_ignoring_case (a b : pystr) : Prop := Forall2 same_letter a b.

(** [q] occurs in [s] when the case of the letters A-Z is ignored: some
    contiguous piece of [s] is [q] up to that case. *)
Definition contains_ignoring_case (q s : pystr) : Prop :=
  exists before piece after,
    s = before ++ piece ++ after /\ same_ignoring_case piece q.

(** A text of ASCII characters only. *)
Definition is_ascii (s : pystr) : bool := forallb (fun c => (c <? 128)%N) s.

(** The two small sigmas, the texts without them, and the characters that
    are equal up to the choice between them. *)
Definition is_small_sigma (c : N) : bool :=
  ((c =? small_sigma) || (c =? final_sigma))%N.

Definition sigma_free (w : pystr) : bool :=
  forallb (fun c => negb (is_small_sigma c)) w.

Definition sigma_variant (c d : N) : Prop :=
  c = d \/ (is_small_sigma c = true /\ is_small_sigma d = true).

(** [s] is obtained from [l] by dropping elements, the order kept. *)
Inductive Subseq {A : Type} : list A -> list A -> Prop :=
| Subseq_nil : Subseq [] []
| Subseq_drop x s l : Subseq s l -> Subseq s (x :: l)
| Subseq_keep x s l : Subseq s l -> Subseq (x :: s) (x :: l).

(** The principal of the EMI branch as the specification words it:
    [max_budget] whenever it is provided. *)
Definition stated_principal (q : UserQuery) : float :=
  match max_budget q with
  | Some b => b
  | None => 1500000%float
  end.

(** An excerpt of the Unicode character database, exact on U+0080-U+00FF,
    U+0130, U+0300-U+036F, U+0391-U+03C9 and U+212A; the characters outside
    the excerpt are left unchanged, uncased and not case-ignorable. *)
Definition sample_ucd : ucd :=
  {| to_lower_full := fun c =>
       if (c =? 0x130)%N then [0x69; 0x307]%N
       else if (c =? 0x212A)%N then [0x6B]%N
       else if ((0xC0 <=? c) && (c <=? 0xDE) && negb (c =? 0xD7))%N
       then [c + 32]%N
       else if ((0x391 <=? c) && (c <=? 0x3AB) && negb (c =? 0x3A2))%N
       then [c + 32]%N
       else [c];
     is_cased := fun c =>
       ((0xC0 <=? c) && (c <=? 0xFF) && negb (c =? 0xD7) && negb (c =? 0xF7)
        || (c =? 0xAA) || (c =? 0xB5) || (c =? 0xBA)
        || (0x391 <=? c) && (c <=? 0x3C9) && negb (c =? 0x3A2)
        || (c =? 0x130) || (c =? 0x212A))%N;
     is_case_ignorable := fun c =>
       ((0x300 <=? c) && (c <=? 0x36F)
        || (c =? 0xAD) || (c =? 0xA8) || (c =? 0xAF) || (c =? 0xB4)
        || (c =? 0xB7) || (c =? 0xB8))%N |}.

(** The catalog entry of the end-to-end examples. *)
Definition maruti_alto : CarRecord :=
  {| name := text "Maruti Alto"; price := 450000%float;
     fuel_type := text "Petrol"; seating_capacity := 5;
     safety_rating := text "2 Star"; model_year := 2023 |}.

(** A record whose name contains the whole text "find alto". *)
Definition alto_guide : CarRecord :=
  {| name := text "How to Find Alto"; price := 0%float; fuel_type := [];
     seating_capacity := 0; safety_rating := []; model_year := 0 |}.

(** A record whose name is the three Greek capitals alpha, sigma, alpha. *)
Definition alpha_sigma_alpha : CarRecord :=
  {| name := [0x391; 0x3A3; 0x391]%N; price := 0%float; fuel_type := [];
     seating_capacity := 0; safety_rating := []; model_year := 0 |}.

Definition find_alto : UserQuery :=
  {| query := text "find alto"; user_income := None; max_budget := None |}.

Definition emi_for_car : UserQuery :=
  {| query := text "emi for car"; user_income := Some 600000%float;
     max_budget := None |}.
End Spec.

(* ================================================================== *)
(** ** The routes of [main.py] that call the tools *)

Module Routes.
Import PyStr PyFloat Intent CarAdvisor.

(** The answer of [GET /car/{name}]: a record, or the dictionary
    [{"error": "Car not found"}]. *)
Inductive CarResponse : Set :=
| CarPayload (car : CarRecord)
| CarNotFound.

Section Handlers.
Variable db : ucd.
Variable cars_data : list CarRecord.
Variable libm_pow : float -> float -> float * c_errno.

(** [calculate_emi(principal, rate, tenure)]; the three path segments are
    parsed as floats. *)
Definition test_emi (principal rate tenure : float) : outcome EMIResult :=
  calculate_emi libm_pow principal rate tenure.

(** [get_car_by_name(name) or {"error": "Car not found"}].  A record that
    was found has the key ["name"], so that it is a non-empty dictionary and
    truthy; only [None] gives way to the error dictionary. *)
Definition test_car (name : pystr) : CarResponse :=
  match get_car_by_name db cars_data name with
  | Some car => CarPayload car
  | None => CarNotFound
  end.

Definition test_budget (max_price : float) : list CarRecord :=
  get_cars_by_budget cars_data max_price.

(** [apply_safety_rules(emi, income)]: the income is a path segment and is
    always present. *)
Definition test_rules (emi income : float) : Verdict :=
  apply_safety_rules emi (Some income).

Definition process_query (query : UserQuery) : outcome QueryResult :=
  process_user_query db cars_data libm_pow query.
End Handlers.
End Routes.

(* ================================================================== *)
(** ** Further notions for the properties of the dispatcher *)

Module Views.
Import PyStr PyFloat Intent CarAdvisor.
Open Scope string_scope.

(** The rank of an intent in the order [detect_intent] tries them. *)
Definition priority (intent : pystr) : nat :=
  if str_eqb intent (text "emi_calculation") then 0
  else if str_eqb intent (text "budget_search") then 1
  else if str_eqb intent (text "car_comparison") then 2
  else if str_eqb intent (text "car_search") then 3
  else 4.

(** The intent whose branch builds a tool output of this shape. *)
Definition shape_intent (tool : ToolOutput) : pystr :=
  match tool with
  | ToolEMI _ => text "emi_calculation"
  | ToolCars _ => text "budget_search"
  | ToolMessage _ => text "car_comparison"
  | ToolCar _ => text "car_search"
  | ToolCount _ => text "general_info"
  end.

(** A request with another income, or another budget. *)
Definition with_income (income : option float) (q : UserQuery) : UserQuery :=
  {| query := query q; user_income := income; max_budget := max_budget q |}.

Definition with_budget (budget : option float) (q : UserQuery) : UserQuery :=
  {| query := query q; user_income := user_income q; max_budget := budget |}.

(** The tool output and the verdict of a response, its echo left out. *)
Definition payload (response : outcome QueryResult)
    : outcome (ToolOutput * Verdict) :=
  bind response (fun r => Returns (tool_output r, safety_check r)).
End Views.

Import PyStr PyFloat Intent CarAdvisor Spec Routes Views.

(* ================================================================== *)
(** ** Strings: substring search *)

Section StringFacts.
Open Scope list_scope.

Lemma str_eqb_eq (a b : pystr) : str_eqb a b = true <-> a = b.
Proof.
  revert b; induction a as [|x a IH]; intros [|y b]; simpl;
    try (split; [reflexivity || discriminate | reflexivity || discriminate]).
  rewrite andb_true_iff, N.eqb_eq, IH. split.
  - now intros [-> ->].
  - intros [= -> ->]. now split.
Qed.

Lemma starts_with_spec (p s : pystr) :
  starts_with p s = true <-> exists rest, s = p ++ rest.
Proof.
  revert s; induction p as [|a p IH]; intros s; simpl.
  - split; [intros _; now exists s | reflexivity].
  - destruct s as [|b s].
    + split; [discriminate | intros [rest H]; discriminate].
    + rewrite andb_true_iff, N.eqb_eq, IH. split.
      * intros [-> [rest ->]]. now exists rest.
      * intros [rest H]. injection H as -> ->. split; [reflexivity | now exists rest].
Qed.

Lemma str_in_spec (needle hay : pystr) :
  str_in needle hay = true <-> exists before after, hay = before ++ needle ++ after.
Proof.
  induction hay as [|c hay IH].
  - simpl. rewrite orb_false_r, starts_with_spec. split.
    + intros [rest H]. now exists [], rest.
    + intros [[|x before] [after H]]; [now exists after | discriminate].
  - cbn [str_in]. rewrite orb_true_iff, IH, starts_with_spec. split.
    + intros [[rest H] | [before [after H]]].
      * now exists [], rest.
      * exists (c :: before), after. simpl. now rewrite H.
    + intros [[|x before] [after H]].
      * left. now exists after.
      * right. simpl in H. injection H as _ H. now exists before, after.
Qed.

Lemma str_in_empty (hay : pystr) : str_in [] hay = true.
Proof. destruct hay; reflexivity. Qed.

Lemma str_in_refl (s : pystr) : str_in s s = true.
Proof. apply str_in_spec. exists [], []. now rewrite app_nil_r. Qed.

Lemma str_in_trans (a b c : pystr) :
  str_in a b = true -> str_in b c = true -> str_in a c = true.
Proof.
  rewrite !str_in_spec. intros (p & r & ->) (p' & r' & ->).
  exists (p' ++ p), (r ++ r'). now rewrite !app_assoc.
Qed.

(** A keyword found in a text is found in every text around it. *)
Lemma str_in_context (w text before after : pystr) :
  str_in w text = true -> str_in w (before ++ text ++ after) = true.
Proof.
  intros H. apply (str_in_trans w text); [exact H |].
  apply str_in_spec. now exists before, after.
Qed.

Lemma any_in_spec (words : list pystr) (text : pystr) :
  any_in words text = true <-> exists w, In w words /\ str_in w text = true.
Proof. unfold any_in. apply existsb_exists. Qed.
End StringFacts.

(* ================================================================== *)
(** ** Strings: [str.lower] *)

Section LowerFacts.
Open Scope list_scope.
Open Scope N_scope.
Variable db : ucd.

(** Decides the comparisons of code points in the goal. *)
Ltac code_cases :=
  unfold lower_full, cased, case_ignorable, ascii_lower, is_small_sigma,
    capital_sigma, small_sigma, final_sigma in *;
  simpl existsb;
  repeat match goal with
         | |- context [N.leb ?a ?b] => destruct (N.leb_spec a b)
         | |- context [N.ltb ?a ?b] => destruct (N.ltb_spec a b)
         | |- context [N.eqb ?a ?b] => destruct (N.eqb_spec a b)
         end;
  simpl; try reflexivity; try discriminate; try lia.

(** On ASCII text the database is not read: the letters A-Z are folded. *)
Lemma lower_from_ascii (s : pystr) (st : bool) :
  is_ascii s = true -> lower_from db st s = map ascii_lower s.
Proof.
  revert st; induction s as [|c s IH]; intros st; simpl; [reflexivity |].
  intros [Hc Hs]%andb_prop. rewrite (IH _ Hs). apply N.ltb_lt in Hc.
  unfold lower_full, capital_sigma.
  destruct (N.eqb_spec c 931); [lia |].
  destruct (N.ltb_spec c 128); [reflexivity | lia].
Qed.

Lemma lower_ascii (s : pystr) :
  is_ascii s = true -> lower db s = map ascii_lower s.
Proof. apply lower_from_ascii. Qed.

(** Folding tells the letters apart exactly up to their case. *)
Lemma ascii_lower_same_letter (c d : N) :
  ascii_lower c = ascii_lower d <-> same_letter c d.
Proof.
  unfold same_letter, ascii_lower. split.
  - repeat match goal with
           | |- context [N.leb ?a ?b] => destruct (N.leb_spec a b)
           end; simpl; lia.
  - intros [-> | [[H ->] | [H ->]]]; [reflexivity | |];
      repeat match goal with
             | |- context [N.leb ?a ?b] => destruct (N.leb_spec a b)
             end; simpl; lia.
Qed.

Lemma map_ascii_lower_same (p q : pystr) :
  map ascii_lower p = map ascii_lower q <-> same_ignoring_case p q.
Proof.
  unfold same_ignoring_case. revert q; induction p as [|c p IH]; intros [|d q];
    simpl; split; intros H; try discriminate; try constructor;
    try solve [inversion H].
  - injection H as Hc Hp. now apply ascii_lower_same_letter.
  - injection H as Hc Hp. now apply IH.
  - inversion H as [|? ? ? ? Hc Hp]; subst.
    apply ascii_lower_same_letter in Hc. apply IH in Hp. congruence.
Qed.

(** What [lower] reads of a character is the same for both cases of a
    letter. *)
Lemma same_letter_reads (c d : N) :
  same_letter c d ->
  (c =? capital_sigma) = (d =? capital_sigma)
  /\ lower_full db c = lower_full db d
  /\ cased db c = cased db d
  /\ case_ignorable db c = case_ignorable db d.
Proof.
  intros [-> | [[H ->] | [H ->]]]; [now repeat split | |];
    repeat split; code_cases.
Qed.

Lemma ends_word_same (r r' : pystr) :
  same_ignoring_case r r' -> ends_word db r = ends_word db r'.
Proof.
  induction 1 as [|c d r r' Hcd _ IH]; simpl; [reflexivity |].
  destruct (same_letter_reads c d Hcd) as (_ & _ & Hcased & Hign).
  now rewrite Hcased, Hign, IH.
Qed.

(** Texts that differ in the case of the letters A-Z only have the same
    lower-case text. *)
Lemma lower_from_same (q q' : pystr) (st : bool) :
  same_ignoring_case q q' -> lower_from db st q = lower_from db st q'.
Proof.
  intros H. revert st. induction H as [|c d r r' Hcd Hr IH]; intros st; simpl;
    [reflexivity |].
  destruct (same_letter_reads c d Hcd) as (Hsig & Hfull & Hcased & Hign).
  now rewrite Hsig, Hfull, Hcased, Hign, (ends_word_same r r' Hr), IH.
Qed.

Lemma lower_same (q q' : pystr) :
  same_ignoring_case q q' -> lower db q = lower db q'.
Proof. apply lower_from_same. Qed.

(** *** The capital sigma is the one character whose image depends on its
    neighbours: texts around a text change its lower-case text in the
    choice of small sigmas only. *)

Lemma sigma_variant_refl (l : pystr) : Forall2 sigma_variant l l.
Proof. induction l; constructor; [now left | assumption]. Qed.

Lemma sigma_variant_sym (l l' : pystr) :
  Forall2 sigma_variant l l' -> Forall2 sigma_variant l' l.
Proof.
  induction 1 as [|c d l l' [-> | [Hc Hd]] _ IH]; constructor;
    try assumption; [now left | now right].
Qed.

Lemma sigma_variant_trans (l1 l2 l3 : pystr) :
  Forall2 sigma_variant l1 l2 -> Forall2 sigma_variant l2 l3 ->
  Forall2 sigma_variant l1 l3.
Proof.
  intros H. revert l3. induction H as [|c d l l' Hcd _ IH]; intros l3 H3;
    inversion H3 as [|? e ? l3' Hde Hl]; subst; constructor; [| now apply IH].
  destruct Hcd as [-> | [Hc Hd]]; [exact Hde |].
  destruct Hde as [<- | [_ He]]; right; now split.
Qed.

Lemma sigma_free_variant_eq (w w' : pystr) :
  sigma_free w = true -> Forall2 sigma_variant w w' -> w = w'.
Proof.
  intros Hfree H. induction H as [|c d w w' Hcd _ IH]; [reflexivity |].
  simpl in Hfree. apply andb_prop in Hfree as [Hc Hw].
  destruct Hcd as [-> | [Hs _]]; [now rewrite (IH Hw) |].
  rewrite Hs in Hc. discriminate.
Qed.

(** The image of one character, which the state and the rest can change in
    the sigma only. *)
Lemma lower_head_variant (c : N) (st st' : bool) (rest rest' : pystr) :
  Forall2 sigma_variant
    (if c =? capital_sigma
     then [if st && ends_word db rest then final_sigma else small_sigma]
     else lower_full db c)
    (if c =? capital_sigma
     then [if st' && ends_word db rest' then final_sigma else small_sigma]
     else lower_full db c).
Proof.
  destruct (c =? capital_sigma); [| apply sigma_variant_refl].
  constructor; [| constructor]. right.
  split; [destruct (st && _) | destruct (st' && _)]; reflexivity.
Qed.

Lemma lower_from_state (s : pystr) (st st' : bool) :
  Forall2 sigma_variant (lower_from db st s) (lower_from db st' s).
Proof.
  revert st st'. induction s as [|c s IH]; intros st st'; simpl;
    [constructor |].
  apply Forall2_app; [apply lower_head_variant | apply IH].
Qed.

Lemma lower_from_app (x y : pystr) (st : bool) :
  exists X st',
    lower_from db st (x ++ y) = X ++ lower_from db st' y
    /\ Forall2 sigma_variant X (lower_from db st x).
Proof.
  revert st. induction x as [|c x IH]; intros st; simpl.
  - exists [], st. split; [reflexivity | constructor].
  - destruct (IH (if case_ignorable db c then st else cased db c))
      as (X & st' & -> & HX).
    eexists (_ ++ X), st'. split; [now rewrite app_assoc |].
    apply Forall2_app; [apply lower_head_variant | exact HX].
Qed.

Lemma str_in_variant (w l l' : pystr) :
  sigma_free w = true -> Forall2 sigma_variant l l' ->
  str_in w l = true -> str_in w l' = true.
Proof.
  intros Hfree H (p & r & ->)%str_in_spec.
  apply Forall2_app_inv_l in H as (p' & wr' & _ & H & ->).
  apply Forall2_app_inv_l in H as (w' & r' & Hw & _ & ->).
  rewrite <- (sigma_free_variant_eq w w' Hfree Hw).
  apply str_in_spec. now exists p', r'.
Qed.

(** A word without small sigmas that occurs in the lower-case text of a
    text occurs in the lower-case text of every text around it. *)
Lemma lower_keeps_word (w q before after : pystr) :
  sigma_free w = true ->
  str_in w (lower db q) = true ->
  str_in w (lower db (before ++ q ++ after)) = true.
Proof.
  intros Hfree Hin. unfold lower.
  destruct (lower_from_app before (q ++ after) false) as (B & st1 & -> & _).
  destruct (lower_from_app q after st1) as (Q & st2 & -> & HQ).
  apply str_in_context.
  apply (str_in_variant w (lower_from db false q) Q Hfree); [| exact Hin].
  apply sigma_variant_sym.
  exact (sigma_variant_trans _ _ _ HQ (lower_from_state q st1 false)).
Qed.

Lemma lower_keeps_any (words : list pystr) (q before after : pystr) :
  forallb sigma_free words = true ->
  any_in words (lower db q) = true ->
  any_in words (lower db (before ++ q ++ after)) = true.
Proof.
  intros Hfree (w & Hw & Hin)%any_in_spec. apply any_in_spec. exists w.
  split; [exact Hw |]. apply lower_keeps_word; [| exact Hin].
  rewrite forallb_forall in Hfree. now apply Hfree.
Qed.

Lemma ascii_sigma_free (p : pystr) :
  is_ascii p = true -> sigma_free (map ascii_lower p) = true.
Proof.
  induction p as [|c p IH]; simpl; [reflexivity |].
  intros [Hc Hp]%andb_prop. rewrite (IH Hp), andb_true_r.
  apply N.ltb_lt in Hc.
  assert (Hlow : ascii_lower c < 200)
    by (unfold ascii_lower; destruct ((65 <=? c) && (c <=? 90)); lia).
  unfold is_small_sigma, small_sigma, final_sigma.
  destruct (N.eqb_spec (ascii_lower c) 963); [lia |].
  destruct (N.eqb_spec (ascii_lower c) 962); [lia | reflexivity].
Qed.

Lemma same_ignoring_case_ascii (p q : pystr) :
  same_ignoring_case p q -> is_ascii q = true -> is_ascii p = true.
Proof.
  induction 1 as [|c d p q Hcd _ IH]; simpl; [reflexivity |].
  intros [Hd Hq]%andb_prop. rewrite (IH Hq), andb_true_r.
  apply N.ltb_lt in Hd. apply N.ltb_lt.
  destruct Hcd as [-> | [[H ->] | [H ->]]]; lia.
Qed.

(** An ASCII text that occurs in a text, up to the case of its letters,
    occurs lower-cased in the lower-case text. *)
Lemma lower_contains (q s : pystr) :
  is_ascii q = true -> contains_ignoring_case q s ->
  str_in (lower db q) (lower db s) = true.
Proof.
  intros Hq (before & piece & after & -> & Hsame).
  pose proof (same_ignoring_case_ascii _ _ Hsame Hq) as Hp.
  rewrite <- (lower_same piece q Hsame).
  apply lower_keeps_word; [| apply str_in_refl].
  rewrite (lower_ascii piece Hp). now apply ascii_sigma_free.
Qed.

(** Between ASCII texts the test of [get_car_by_name] is containment up to
    the case of the letters. *)
Lemma str_in_lower_ascii (q s : pystr) :
  is_ascii q = true -> is_ascii s = true ->
  (str_in (lower db q) (lower db s) = true <-> contains_ignoring_case q s).
Proof.
  intros Hq Hs. split; [| now apply lower_contains].
  rewrite (lower_ascii q Hq), (lower_ascii s Hs).
  intros (b & a & H)%str_in_spec.
  apply map_eq_app in H as (s1 & s23 & -> & _ & H).
  apply map_eq_app in H as (s2 & s3 & -> & H & _).
  exists s1, s2, s3. split; [reflexivity | now apply map_ascii_lower_same].
Qed.
End LowerFacts.

(* ================================================================== *)
(** ** Checks of the float operations *)

Section FloatModelFacts.
Open Scope Z_scope.

(** The integer chosen is nearest to the quotient: twice the error is at
    most one divisor. *)
Lemma div_half_even_nearest (a b : Z) :
  0 < b -> Z.abs (2 * (b * div_half_even a b - a)) <= b.
Proof.
  intros Hb. unfold div_half_even.
  pose proof (Z.div_mod a b ltac:(lia)) as Hdiv.
  pose proof (Z.mod_pos_bound a b Hb) as Hmod.
  destruct (Z.compare_spec (2 * (a mod b)) b) as [E | E | E];
    [destruct (Z.even (a / b)) |..]; nia.
Qed.

(** On a tie the even neighbour is taken. *)
Lemma div_half_even_tie (a b : Z) :
  0 < b -> 2 * (a mod b) = b -> Z.even (div_half_even a b) = true.
Proof.
  intros Hb Htie. unfold div_half_even. rewrite Htie, Z.compare_refl.
  destruct (Z.even (a / b)) eqn:E; [exact E |].
  rewrite Z.even_add, E. reflexivity.
Qed.

(** [round(x, 2)] at values whose results Python documents or prints. *)
Example round2_examples :
  round2 2.675 = 2.67%float /\ round2 0.125 = 0.12%float
  /\ round2 0.375 = 0.38%float /\ round2 (-0.001) = (-0)%float
  /\ round2 1e300 = 1e300%float /\ round2 infinity = infinity
  /\ round2 31502.791964573553 = 31502.79%float.
Proof. vm_compute. repeat split. Qed.

Example nearest_binary64_examples :
  nearest_binary64 false 1 10 = 0.1%float
  /\ nearest_binary64 false 1 3 = (1 / 3)%float
  /\ nearest_binary64 true 267 100 = (-2.67)%float.
Proof. vm_compute. repeat split. Qed.

Variable libm_pow : float -> float -> float * c_errno.

(** [x ** 0] is 1 for every [x], and [1 ** y] is 1 for every [y]; the C
    library is not consulted. *)
Lemma py_pow_zero_exponent (x : float) : py_pow libm_pow x 0 = PowFloat 1.
Proof. reflexivity. Qed.

Lemma py_pow_base_one (y : float) : py_pow libm_pow 1 y = PowFloat 1.
Proof.
  unfold py_pow.
  destruct (y =? 0)%float; [reflexivity |].
  change (is_nan 1) with false. cbv iota.
  destruct (is_nan y); [reflexivity |].
  destruct (is_infinity y); reflexivity.
Qed.

Example py_pow_examples :
  py_pow reference_pow 2 10 = PowFloat 1024
  /\ py_pow reference_pow (-2) 3 = PowFloat (-8)
  /\ py_pow reference_pow (-2) 0.5 = PowComplex
  /\ py_pow reference_pow 0 (-1) = PowRaises ZeroDivisionError
  /\ py_pow reference_pow 10 400 = PowRaises OverflowError.
Proof. vm_compute. repeat split. Qed.
End FloatModelFacts.

(* ================================================================== *)
(** ** Intent detection *)

Section IntentFacts.
Open Scope string_scope.
Variable db : ucd.

(** C2. The four keyword lists are tried in the order EMI, budget,
    comparison, search, and the first list with a keyword in the folded
    query decides; no match gives [general_info].  A query whose folded
    text contains both "emi" and "compare" is an [emi_calculation]. *)
Theorem detect_intent_priority (q : pystr) :
  let folded := lower db q in
  (detect_intent db q = text "emi_calculation" <->
     any_in emi_words folded = true)
  /\ (detect_intent db q = text "budget_search" <->
        any_in emi_words folded = false /\ any_in budget_words folded = true)
  /\ (detect_intent db q = text "car_comparison" <->
        any_in emi_words folded = false /\ any_in budget_words folded = false
        /\ any_in compare_words folded = true)
  /\ (detect_intent db q = text "car_search" <->
        any_in emi_words folded = false /\ any_in budget_words folded = false
        /\ any_in compare_words folded = false
        /\ any_in search_words folded = true)
  /\ (detect_intent db q = text "general_info" <->
        any_in emi_words folded = false /\ any_in budget_words folded = false
        /\ any_in compare_words folded = false
        /\ any_in search_words folded = false)
  /\ (str_in (text "emi") folded = true ->
      str_in (text "compare") folded = true ->
      detect_intent db q = text "emi_calculation").
Proof.
  intros folded. unfold detect_intent. fold folded.
  assert (Hemi : str_in (text "emi") folded = true ->
                 any_in emi_words folded = true).
  { intros H. apply any_in_spec. exists (text "emi").
    split; [now left | exact H]. }
  destruct (any_in emi_words folded) eqn:E1;
    [| destruct (any_in budget_words folded) eqn:E2;
       [| destruct (any_in compare_words folded) eqn:E3;
          [| destruct (any_in search_words folded) eqn:E4]]];
    repeat split; intros; try discriminate; try reflexivity;
    try (exfalso; intuition discriminate);
    try (specialize (Hemi ltac:(assumption)); discriminate).
Qed.

Lemma detect_intent_cases (q : pystr) :
  In (detect_intent db q)
     [text "emi_calculation"; text "budget_search"; text "car_comparison";
      text "car_search"; text "general_info"].
Proof.
  unfold detect_intent.
  repeat match goal with |- context [if ?b then _ else _] => destruct b end;
    simpl; tauto.
Qed.
End IntentFacts.

Example detect_intent_priority_witness :
  detect_intent sample_ucd (text "compare emi of two cars")
  = text "emi_calculation".
Proof.
  apply (detect_intent_priority sample_ucd (text "compare emi of two cars"));
    reflexivity.
Defined.

(* ================================================================== *)
(** ** The catalog tools *)

Section CatalogFacts.
Open Scope string_scope.
Open Scope list_scope.
Variable db : ucd.
Variable cars_data : list CarRecord.

Lemma first_named_spec (lowered : pystr) (cars : list CarRecord) :
  match first_named db lowered cars with
  | Some car =>
      exists before after,
        cars = before ++ car :: after
        /\ str_in lowered (lower db (name car)) = true
        /\ forall c, In c before -> str_in lowered (lower db (name c)) = false
  | None => forall c, In c cars -> str_in lowered (lower db (name c)) = false
  end.
Proof.
  induction cars as [|car rest IH]; simpl.
  - intros c [].
  - destruct (str_in lowered (lower db (name car))) eqn:E.
    + exists [], rest. repeat split; [exact E | intros c []].
    + destruct (first_named db lowered rest) as [found|].
      * destruct IH as (before & after & -> & Hin & Hbefore).
        exists (car :: before), after. repeat split; [exact Hin |].
        intros c [<- | Hc]; [exact E | now apply Hbefore].
      * intros c [<- | Hc]; [exact E | now apply IH].
Qed.

(** C6, as amended. The lookup returns the first record, in catalog order,
    whose lower-cased name contains the lower-cased query, and [None] when
    no record does.  For an ASCII query and ASCII names that is the first
    record whose name contains the query when the case of the letters is
    ignored.  "ALTO" and "alto" are looked up alike. *)
Theorem get_car_by_name_first_lowered_match (q : pystr) :
  match get_car_by_name db cars_data q with
  | Some car =>
      exists before after,
        cars_data = before ++ car :: after
        /\ str_in (lower db q) (lower db (name car)) = true
        /\ forall c, In c before ->
             str_in (lower db q) (lower db (name c)) = false
  | None =>
      forall c, In c cars_data ->
        str_in (lower db q) (lower db (name c)) = false
  end
  /\ (is_ascii q = true ->
      (forall c, In c cars_data -> is_ascii (name c) = true) ->
      match get_car_by_name db cars_data q with
      | Some car =>
          exists before after,
            cars_data = before ++ car :: after
            /\ contains_ignoring_case q (name car)
            /\ forall c, In c before -> ~ contains_ignoring_case q (name c)
      | None => forall c, In c cars_data -> ~ contains_ignoring_case q (name c)
      end)
  /\ get_car_by_name db cars_data (text "ALTO")
     = get_car_by_name db cars_data (text "alto").
Proof.
  split; [| split; [| reflexivity]].
  - apply first_named_spec.
  - intros Hq Hnames. unfold get_car_by_name.
    pose proof (first_named_spec (lower db q) cars_data) as H.
    destruct (first_named db (lower db q) cars_data) as [car|].
    + destruct H as (before & after & Hc & Hin & Hbefore).
      assert (Hcar : In car cars_data)
        by (rewrite Hc; apply in_or_app; right; now left).
      exists before, after. repeat split; [exact Hc | |].
      * now apply (str_in_lower_ascii db q (name car) Hq (Hnames car Hcar)).
      * intros c Hc' Hci.
        apply (lower_contains db q (name c) Hq) in Hci.
        rewrite (Hbefore c Hc') in Hci. discriminate.
    + intros c Hc Hci. apply (lower_contains db q (name c) Hq) in Hci.
      rewrite (H c Hc) in Hci. discriminate.
Qed.
End CatalogFacts.

(** C6, refuted as stated. The name of the record is the query followed by
    one more letter, so that it contains the query even with the case kept;
    yet the lookup returns nothing: the capital sigma that ends the query is
    lower-cased to the final sigma, the one inside the name to the other
    small sigma. *)
Lemma get_car_by_name_sigma_counterexample :
  name alpha_sigma_alpha = ([0x391; 0x3A3]%N ++ [0x391]%N)%list
  /\ contains_ignoring_case [0x391; 0x3A3]%N (name alpha_sigma_alpha)
  /\ lower sample_ucd [0x391; 0x3A3]%N = [0x3B1; 0x3C2]%N
  /\ lower sample_ucd (name alpha_sigma_alpha) = [0x3B1; 0x3C3; 0x3B1]%N
  /\ get_car_by_name sample_ucd [alpha_sigma_alpha] [0x391; 0x3A3]%N = None.
Proof.
  split; [reflexivity |]. split; [| repeat split].
  exists [], [0x391; 0x3A3]%N, [0x391]%N.
  split; [reflexivity |]. repeat constructor.
Qed.

Example get_car_by_name_first_lowered_match_witness :
  match get_car_by_name sample_ucd [maruti_alto; alto_guide] (text "ALTO") with
  | Some car =>
      exists before after,
        [maruti_alto; alto_guide] = (before ++ car :: after)%list
        /\ contains_ignoring_case (text "ALTO") (name car)
        /\ forall c, In c before -> ~ contains_ignoring_case (text "ALTO") (name c)
  | None =>
      forall c, In c [maruti_alto; alto_guide] ->
        ~ contains_ignoring_case (text "ALTO") (name c)
  end.
Proof.
  apply (proj1 (proj2 (get_car_by_name_first_lowered_match sample_ucd
                         [maruti_alto; alto_guide] (text "ALTO")))).
  - reflexivity.
  - intros c [<- | [<- | []]]; reflexivity.
Defined.

Section FilterFacts.
Context {A : Type} (keep : A -> bool).

Lemma filter_Subseq (l : list A) : Subseq (filter keep l) l.
Proof.
  induction l as [|x l IH]; simpl; [constructor |].
  destruct (keep x); [now apply Subseq_keep | now apply Subseq_drop].
Qed.

(** Nothing that passes the test is dropped. *)
Lemma filter_largest (s l : list A) :
  Subseq s l -> (forall x, In x s -> keep x = true) -> Subseq s (filter keep l).
Proof.
  induction 1 as [|x s l _ IH|x s l _ IH]; intros Hall; simpl.
  - constructor.
  - destruct (keep x); [apply Subseq_drop |]; now apply IH.
  - rewrite (Hall x (or_introl eq_refl)). apply Subseq_keep.
    apply IH. intros y Hy. apply Hall. now right.
Qed.

Lemma filter_twice (l : list A) : filter keep (filter keep l) = filter keep l.
Proof.
  induction l as [|x l IH]; simpl; [reflexivity |].
  destruct (keep x) eqn:E; simpl; [rewrite E, IH |]; auto.
Qed.
End FilterFacts.

(** C5. The budget filter returns exactly the records priced at most
    [max_price]: its result is a subsequence of the catalog in catalog
    order, holds a record iff the catalog holds it within the budget, and
    contains every within-budget subsequence of the catalog; filtering the
    result again with the same threshold changes nothing. *)
Theorem get_cars_by_budget_exact (cars_data : list CarRecord) (max_price : float) :
  let result := get_cars_by_budget cars_data max_price in
  Subseq result cars_data
  /\ (forall car, In car result <->
        In car cars_data /\ (price car <=? max_price)%float = true)
  /\ (forall s, Subseq s cars_data ->
        (forall car, In car s -> (price car <=? max_price)%float = true) ->
        Subseq s result)
  /\ get_cars_by_budget result max_price = result.
Proof.
  intros result. subst result. unfold get_cars_by_budget.
  split; [apply filter_Subseq |].
  split; [intros car; apply filter_In |].
  split; [intros s Hs Hall; now apply filter_largest | apply filter_twice].
Qed.

(** C10. On the empty query the lookup returns the first record of every
    non-empty catalog, and it returns [None] only on the empty catalog. *)
Theorem get_car_by_name_empty_query (db : ucd) :
  (forall car rest, get_car_by_name db (car :: rest) (text "") = Some car)
  /\ (forall cars_data,
        get_car_by_name db cars_data (text "") = None <-> cars_data = []).
Proof.
  unfold get_car_by_name. split.
  - intros car rest. simpl. now rewrite str_in_empty.
  - intros [|car rest]; simpl; [tauto |].
    rewrite str_in_empty. split; discriminate.
Qed.

(* ================================================================== *)
(** ** The affordability rule *)

Section SafetyFacts.
Open Scope float_scope.

(** Floats that compare equal compare less-or-equal. *)
Lemma eqb_leb (x y : float) : (x =? y) = true -> (x <=? y) = true.
Proof.
  rewrite eqb_spec, leb_spec. unfold SFeqb, SFleb.
  destruct (SFcompare (Prim2SF x) (Prim2SF y)) as [[]|]; congruence.
Qed.

(** C4. Without an income the verdict is an approval; with an income it is
    an approval exactly when [emi_amount <= (user_income / 12) * 0.3], and
    an installment equal to that bound is approved. *)
Theorem apply_safety_rules_approved (emi : float) :
  approved (apply_safety_rules emi None) = true
  /\ (forall income,
        approved (apply_safety_rules emi (Some income)) = true
        <-> (emi <=? income / 12 * 0.3) = true)
  /\ (forall income,
        (emi =? income / 12 * 0.3) = true ->
        approved (apply_safety_rules emi (Some income)) = true).
Proof.
  assert (H : forall income,
            approved (apply_safety_rules emi (Some income))
            = (emi <=? income / 12 * 0.3)).
  { intros income. unfold apply_safety_rules.
    now destruct (emi <=? income / 12 * 0.3). }
  split; [reflexivity |]. split; intros income.
  - now rewrite H.
  - intros Heq. rewrite H. now apply eqb_leb.
Qed.

Example apply_safety_rules_approved_witness :
  approved (apply_safety_rules 15000 (Some 600000)) = true.
Proof.
  apply (apply_safety_rules_approved 15000). reflexivity.
Defined.
End SafetyFacts.

(* ================================================================== *)
(** ** The EMI calculator *)

Section EmiFacts.
Open Scope float_scope.
Variable libm_pow : float -> float -> float * c_errno.

(** A zero monthly rate never reaches the compound formula. *)
Lemma zero_rate_is_plain_division (principal annual_rate tenure_years : float) :
  (annual_rate / 12 / 100 =? 0) = true ->
  unrounded_emi libm_pow principal annual_rate tenure_years
  = py_div principal (tenure_years * 12).
Proof. intros H. unfold unrounded_emi. now rewrite H. Qed.

(** A zero tenure ends in a division by zero, whatever the other
    arguments are: the plain division has the divisor [0 * 12], and in the
    compound formula [x ** 0] is [1], so that the divisor is [1 - 1]. *)
Lemma zero_tenure_divides_by_zero (principal annual_rate : float) :
  calculate_emi libm_pow principal annual_rate 0 = Raises ZeroDivisionError.
Proof.
  unfold calculate_emi, unrounded_emi, compound_emi.
  destruct (annual_rate / 12 / 100 =? 0); reflexivity.
Qed.

(** A monthly rate that is not zero but is lost when added to 1 ends in a
    division by zero at every tenure: the power is [1 ** n = 1]. *)
Lemma absorbed_rate_divides_by_zero (principal annual_rate tenure_years : float) :
  (annual_rate / 12 / 100 =? 0) = false ->
  1 + annual_rate / 12 / 100 = 1 ->
  calculate_emi libm_pow principal annual_rate tenure_years
  = Raises ZeroDivisionError.
Proof.
  intros Hrate Hone. unfold calculate_emi, unrounded_emi, compound_emi.
  rewrite Hrate, Hone, py_pow_base_one. reflexivity.
Qed.

(** At a zero monthly rate and a non-zero number of months a result is
    returned. *)
Lemma zero_rate_returns (principal annual_rate tenure_years : float) :
  (annual_rate / 12 / 100 =? 0) = true ->
  (tenure_years * 12 =? 0) = false ->
  exists result,
    calculate_emi libm_pow principal annual_rate tenure_years = Returns result.
Proof.
  intros Hrate Hmonths. unfold calculate_emi, unrounded_emi, py_div.
  rewrite Hrate, Hmonths. simpl. eexists. reflexivity.
Qed.

(** C8. A positive tenure and a non-negative rate do not exclude the
    division by zero: at the annual rate [1e-15] the monthly rate is
    positive, [1 + monthly_rate] rounds to [1], the power is [1] and the
    divisor [(1 + r) ** n - 1] is zero. *)
Theorem calculate_emi_tiny_rate_divides_by_zero (principal : float) :
  (0 <=? 1e-15) = true /\ (0 <? 5) = true
  /\ (1e-15 / 12 / 100 =? 0) = false
  /\ (1 + 1e-15 / 12 / 100 =? 1) = true
  /\ calculate_emi libm_pow principal 1e-15 5 = Raises ZeroDivisionError.
Proof.
  do 4 (split; [reflexivity |]).
  apply absorbed_rate_divides_by_zero; reflexivity.
Qed.

(** C1. The positive principal 100000, the non-negative rate [1e-15] and
    the positive tenure 5 give no result at all, so that no relation between
    the fields of a result holds there: the call ends in the division by
    zero of C8. *)
Theorem calculate_emi_no_result_at_tiny_rate :
  (0 <? 100000) = true /\ (0 <=? 1e-15) = true /\ (0 <? 5) = true
  /\ calculate_emi libm_pow 100000 1e-15 5 = Raises ZeroDivisionError
  /\ forall result, calculate_emi libm_pow 100000 1e-15 5 <> Returns result.
Proof.
  do 3 (split; [reflexivity |]).
  rewrite absorbed_rate_divides_by_zero by reflexivity.
  split; [reflexivity | discriminate].
Qed.

(** *** The loan of the EMI branch: 9.5 percent over 5 years *)

Lemma py_pow_loan :
  py_pow libm_pow (1 + 9.5 / 12 / 100) (5 * 12)
  = let (ix, errno) := libm_pow (1 + 9.5 / 12 / 100) (5 * 12) in
    match adjust_erange1 ix errno with
    | ENONE => PowFloat ix
    | ERANGE => PowRaises OverflowError
    | EDOM => PowRaises ValueError
    end.
Proof. reflexivity. Qed.

Hypothesis libm_pow_loan : pow_within_ulp libm_pow (1 + 9.5 / 12 / 100) (5 * 12).

(** Reduces a goal on the loan of the EMI branch to the three values the
    accuracy assumption leaves for the power. *)
Ltac split_loan_power :=
  let H := fresh "H" in
  pose proof libm_pow_loan as H; vm_compute in H;
  unfold unrounded_emi, compound_emi;
  change (9.5 / 12 / 100 =? 0) with false; cbv iota;
  rewrite py_pow_loan;
  set (base := 1 + 9.5 / 12 / 100) in *; vm_compute in base; subst base;
  set (months := 5 * 12) in *; vm_compute in months; subst months;
  destruct (libm_pow _ _) as [? ?];
  destruct H as [-> [-> | [-> | ->]]]; vm_compute.

(** The compound formula is defined at every principal. *)
Lemma loan_emi_defined (principal : float) :
  exists emi, unrounded_emi libm_pow principal 9.5 5 = Returns emi.
Proof. split_loan_power; eexists; reflexivity. Qed.

Lemma loan_calculate_emi_defined (principal : float) :
  exists result, calculate_emi libm_pow principal 9.5 5 = Returns result.
Proof.
  unfold calculate_emi. destruct (loan_emi_defined principal) as [emi ->].
  simpl. eexists. reflexivity.
Qed.

(** On the default principal the three candidates for the power give the
    same rounded figures. *)
Lemma default_loan_figures :
  calculate_emi libm_pow 1500000 9.5 5
  = Returns {| emi_amount := 31502.79;
               total_payment := 1890167.52;
               total_interest := 390167.52 |}.
Proof. unfold calculate_emi. split_loan_power; reflexivity. Qed.
End EmiFacts.

(** The reference [pow] meets the accuracy assumed of the C library at the
    operands of the EMI branch. *)
Lemma reference_pow_loan :
  pow_within_ulp reference_pow (1 + 9.5 / 12 / 100)%float (5 * 12)%float.
Proof. vm_compute. split; [reflexivity | right; left; reflexivity]. Defined.

(* ================================================================== *)
(** ** The dispatcher *)

Section DispatchFacts.
Open Scope string_scope.
Open Scope list_scope.
Variable db : ucd.
Variable cars_data : list CarRecord.
Variable libm_pow : float -> float -> float * c_errno.

(** What the EMI branch returns. *)
Lemma emi_branch_result (q : UserQuery) :
  detect_intent db (query q) = text "emi_calculation" ->
  process_user_query db cars_data libm_pow q
  = bind (calculate_emi libm_pow (or_default (max_budget q) 1500000) 9.5 5)
      (fun emi =>
         Returns {| intent := text "emi_calculation";
                    user_query := query q;
                    tool_output := ToolEMI emi;
                    safety_check :=
                      apply_safety_rules (emi_amount emi) (user_income q);
                    recommended_action :=
                      text "Processed emi calculation successfully" |}).
Proof.
  intros H. unfold process_user_query. rewrite H.
  change (str_eqb (text "emi_calculation") (text "emi_calculation")) with true.
  cbv iota. now destruct (calculate_emi libm_pow _ 9.5 5).
Qed.

(** C3, as amended. A request classified as [emi_calculation] gets the EMI
    of the principal [max_budget], when that is provided and not zero, and
    of 1,500,000 otherwise, at the rate 9.5 over 5 years, and the verdict
    of the affordability rule on the rounded installment.  The request
    "emi for car" with income 600000 gets the EMI of 1,500,000, which is
    31502.79 a month, and is not approved. *)
Theorem emi_branch_principal :
  (forall q,
     detect_intent db (query q) = text "emi_calculation" ->
     let principal :=
       match max_budget q with
       | Some b => if (b =? 0)%float then 1500000%float else b
       | None => 1500000%float
       end in
     process_user_query db cars_data libm_pow q
     = bind (calculate_emi libm_pow principal 9.5 5)
         (fun emi =>
            Returns {| intent := text "emi_calculation";
                       user_query := query q;
                       tool_output := ToolEMI emi;
                       safety_check :=
                         apply_safety_rules (emi_amount emi) (user_income q);
                       recommended_action :=
                         text "Processed emi calculation successfully" |}))
  /\ (pow_within_ulp libm_pow (1 + 9.5 / 12 / 100)%float (5 * 12)%float ->
      exists emi result,
        calculate_emi libm_pow 1500000 9.5 5 = Returns emi
        /\ emi_amount emi = 31502.79%float
        /\ process_user_query db cars_data libm_pow emi_for_car = Returns result
        /\ intent result = text "emi_calculation"
        /\ tool_output result = ToolEMI emi
        /\ approved (safety_check result) = false).
Proof.
  split.
  - intros q H. exact (emi_branch_result q H).
  - intros Hpow. eexists. eexists.
    rewrite (emi_branch_result emi_for_car eq_refl).
    change (or_default (max_budget emi_for_car) 1500000) with 1500000%float.
    rewrite (default_loan_figures libm_pow Hpow).
    repeat split.
Qed.

(** C7, as amended. The request "find alto" is a [car_search] whose
    output is the lookup of the whole query text: a record whose
    lower-cased name contains "find alto", which for an ASCII name means
    that the name contains "find alto" when case is ignored, and never a
    record named "Maruti Alto". *)
Theorem find_alto_looks_up_whole_query :
  process_user_query db cars_data libm_pow find_alto
  = Returns {| intent := text "car_search";
               user_query := text "find alto";
               tool_output :=
                 ToolCar (get_car_by_name db cars_data (text "find alto"));
               safety_check := {| approved := true; message := CarFound |};
               recommended_action :=
                 text "Processed car search successfully" |}
  /\ (forall car,
        get_car_by_name db cars_data (text "find alto") = Some car ->
        str_in (text "find alto") (lower db (name car)) = true
        /\ (is_ascii (name car) = true ->
            contains_ignoring_case (text "find alto") (name car))
        /\ name car <> text "Maruti Alto").
Proof.
  split; [reflexivity |].
  intros car H. unfold get_car_by_name in H.
  pose proof (first_named_spec db (lower db (text "find alto")) cars_data)
    as Hspec.
  rewrite H in Hspec. destruct Hspec as (_ & _ & _ & Hin & _).
  split; [exact Hin |]. split.
  - intros Hascii.
    now apply (str_in_lower_ascii db (text "find alto") (name car) eq_refl
                 Hascii).
  - intros Hname. rewrite Hname in Hin. discriminate.
Qed.

Hypothesis libm_pow_loan :
  pow_within_ulp libm_pow (1 + 9.5 / 12 / 100)%float (5 * 12)%float.

(** C9. The intent is one of the five names, and every request gets a
    composite result that carries this intent and echoes the query. *)
Theorem process_user_query_total (q : UserQuery) :
  In (detect_intent db (query q))
     [text "emi_calculation"; text "budget_search"; text "car_comparison";
      text "car_search"; text "general_info"]
  /\ exists result,
       process_user_query db cars_data libm_pow q = Returns result
       /\ intent result = detect_intent db (query q)
       /\ user_query result = query q.
Proof.
  split; [apply detect_intent_cases |].
  unfold process_user_query.
  destruct (str_eqb (detect_intent db (query q)) (text "emi_calculation")).
  - destruct (loan_calculate_emi_defined libm_pow libm_pow_loan
                (or_default (max_budget q) 1500000)) as [emi ->].
    simpl. eexists. repeat split.
  - repeat match goal with
           | |- context [if ?b then _ else _] => destruct b
           end; simpl; eexists; repeat split.
Qed.
End DispatchFacts.

Section DispatchExamples.
Open Scope string_scope.
Open Scope list_scope.

Example emi_branch_principal_witness :
  process_user_query sample_ucd [maruti_alto] reference_pow emi_for_car
  = bind (calculate_emi reference_pow 1500000 9.5 5)
      (fun emi =>
         Returns {| intent := text "emi_calculation";
                    user_query := text "emi for car";
                    tool_output := ToolEMI emi;
                    safety_check :=
                      apply_safety_rules (emi_amount emi) (Some 600000%float);
                    recommended_action :=
                      text "Processed emi calculation successfully" |})
  /\ exists emi result,
       calculate_emi reference_pow 1500000 9.5 5 = Returns emi
       /\ emi_amount emi = 31502.79%float
       /\ process_user_query sample_ucd [maruti_alto] reference_pow emi_for_car
          = Returns result
       /\ intent result = text "emi_calculation"
       /\ tool_output result = ToolEMI emi
       /\ approved (safety_check result) = false.
Proof.
  split.
  - apply (proj1 (emi_branch_principal sample_ucd [maruti_alto] reference_pow)
             emi_for_car).
    reflexivity.
  - apply (proj2 (emi_branch_principal sample_ucd [maruti_alto] reference_pow)).
    exact reference_pow_loan.
Defined.

(** C3, refuted as stated. A budget of zero is provided, yet the EMI is
    that of 1,500,000 and not that of the principal 0. *)
Lemma emi_branch_zero_budget_counterexample :
  let q := {| query := text "emi"; user_income := None;
              max_budget := Some 0%float |} in
  detect_intent sample_ucd (query q) = text "emi_calculation"
  /\ stated_principal q = 0%float
  /\ calculate_emi reference_pow (stated_principal q) 9.5 5
     = Returns {| emi_amount := 0; total_payment := 0; total_interest := 0 |}
  /\ exists result,
       process_user_query sample_ucd [] reference_pow q = Returns result
       /\ tool_output result
          = ToolEMI {| emi_amount := 31502.79; total_payment := 1890167.52;
                       total_interest := 390167.52 |}
       /\ tool_output result
          <> ToolEMI {| emi_amount := 0; total_payment := 0;
                        total_interest := 0 |}.
Proof.
  vm_compute. repeat split. eexists. repeat split.
  intros H.
  apply (f_equal (fun tool => match tool with
                              | ToolEMI emi => (emi_amount emi =? 0)%float
                              | _ => true
                              end)) in H.
  vm_compute in H. discriminate.
Qed.

(** C7, refuted as stated. With "Maruti Alto" in the catalog the request
    "find alto" is a [car_search] whose output is absent. *)
Lemma find_alto_counterexample :
  In maruti_alto [maruti_alto]
  /\ price maruti_alto = 450000%float
  /\ exists result,
       process_user_query sample_ucd [maruti_alto] reference_pow find_alto
       = Returns result
       /\ intent result = text "car_search"
       /\ tool_output result = ToolCar None
       /\ tool_output result <> ToolCar (Some maruti_alto).
Proof.
  split; [now left |]. split; [reflexivity |].
  eexists. split; [reflexivity |]. repeat split. discriminate.
Qed.

Example find_alto_looks_up_whole_query_witness :
  str_in (text "find alto") (lower sample_ucd (name alto_guide)) = true
  /\ (is_ascii (name alto_guide) = true ->
      contains_ignoring_case (text "find alto") (name alto_guide))
  /\ name alto_guide <> text "Maruti Alto".
Proof.
  apply (proj2 (find_alto_looks_up_whole_query sample_ucd
                  [maruti_alto; alto_guide] reference_pow) alto_guide).
  reflexivity.
Defined.

Example process_user_query_total_witness :
  exists result,
    process_user_query sample_ucd [maruti_alto] reference_pow emi_for_car
    = Returns result
    /\ intent result = detect_intent sample_ucd (query emi_for_car)
    /\ user_query result = query emi_for_car.
Proof.
  apply (process_user_query_total sample_ucd [maruti_alto] reference_pow
           reference_pow_loan emi_for_car).
Defined.
End DispatchExamples.

(* ================================================================== *)
(** ** The order of floats *)

Section FloatOrderFacts.
Open Scope float_scope.

Lemma SFleb_trans (x y z : spec_float) :
  SFleb x y = true -> SFleb y z = true -> SFleb x z = true.
Proof.
  unfold SFleb, SFcompare.
  destruct x as [sx|sx| |sx mx ex], y as [sy|sy| |sy my ey],
           z as [sz|sz| |sz mz ez];
    try destruct sx; try destruct sy; try destruct sz;
    try reflexivity; try discriminate;
    rewrite ?Pos.compare_cont_spec; simpl;
    repeat match goal with
           | |- context [Z.compare ?a ?b] => destruct (Z.compare_spec a b)
           | |- context [Pos.compare ?a ?b] => destruct (Pos.compare_spec a b)
           end; simpl; try reflexivity; try discriminate; intros; exfalso; lia.
Qed.

Lemma leb_trans (x y z : float) :
  (x <=? y) = true -> (y <=? z) = true -> (x <=? z) = true.
Proof. rewrite !leb_spec. apply SFleb_trans. Qed.

(** NaN is the one float that differs from itself. *)
Lemma is_nan_eq (x : float) : is_nan x = true -> x = nan.
Proof.
  unfold is_nan. rewrite eqb_spec. intros H.
  rewrite <- (SF2Prim_Prim2SF x).
  unfold SFeqb, SFcompare in H.
  destruct (Prim2SF x) as [s|s| |s m e]; try destruct s;
    try reflexivity; try discriminate;
    rewrite ?Pos.compare_cont_spec, ?Z.compare_refl, ?Pos.compare_refl in H;
    discriminate.
Qed.

Lemma leb_nan_r (x y : float) : is_nan y = true -> (x <=? y) = false.
Proof.
  intros ->%is_nan_eq. rewrite leb_spec. change (Prim2SF nan) with S754_nan.
  unfold SFleb, SFcompare. now destruct (Prim2SF x).
Qed.

Lemma leb_nan_l (x y : float) : is_nan x = true -> (x <=? y) = false.
Proof. intros ->%is_nan_eq. rewrite leb_spec. reflexivity. Qed.

(** Only the two zeros compare equal to zero. *)
Lemma eqb_zero (t : float) : (t =? 0) = true -> t = 0 \/ t = (-0)%float.
Proof.
  rewrite eqb_spec. change (Prim2SF 0) with (S754_zero false).
  intros H. rewrite <- (SF2Prim_Prim2SF t).
  destruct (Prim2SF t) as [s|s| |s m e]; try destruct s; try discriminate; auto.
Qed.
End FloatOrderFacts.

(* ================================================================== *)
(** ** Further properties of intent detection *)

Section MoreIntentFacts.
Open Scope string_scope.
Open Scope list_scope.
Variable db : ucd.

(** X1. The case of the letters A-Z of a query is ignored: two queries that
    differ in it only, whatever the other characters are, have the same
    intent and the same lookup result. *)
Theorem query_case_is_ignored (cars_data : list CarRecord) (q q' : pystr) :
  same_ignoring_case q q' ->
  detect_intent db q = detect_intent db q'
  /\ get_car_by_name db cars_data q = get_car_by_name db cars_data q'.
Proof.
  intros H. unfold detect_intent, get_car_by_name.
  now rewrite (lower_same db q q' H).
Qed.

Lemma keywords_sigma_free :
  forallb sigma_free emi_words = true
  /\ forallb sigma_free budget_words = true
  /\ forallb sigma_free compare_words = true
  /\ forallb sigma_free search_words = true.
Proof. repeat split. Qed.

(** X2. Text added around a query never lowers its priority: the intent of
    the longer text comes no later in the order EMI, budget, comparison,
    search, general.  So an EMI query stays an EMI query, and the parts of
    a general query are general queries. *)
Theorem longer_text_keeps_priority (before q after : pystr) :
  (priority (detect_intent db (before ++ q ++ after))
   <= priority (detect_intent db q))%nat
  /\ (detect_intent db q = text "emi_calculation" ->
      detect_intent db (before ++ q ++ after) = text "emi_calculation")
  /\ (detect_intent db (before ++ q ++ after) = text "general_info" ->
      detect_intent db q = text "general_info").
Proof.
  unfold detect_intent.
  set (t := lower db q). set (T := lower db (before ++ q ++ after)).
  destruct keywords_sigma_free as (F1 & F2 & F3 & F4).
  pose proof (lower_keeps_any db emi_words q before after F1) as H1.
  pose proof (lower_keeps_any db budget_words q before after F2) as H2.
  pose proof (lower_keeps_any db compare_words q before after F3) as H3.
  pose proof (lower_keeps_any db search_words q before after F4) as H4.
  fold t T in H1, H2, H3, H4.
  destruct (any_in emi_words t), (any_in budget_words t),
    (any_in compare_words t), (any_in search_words t);
    try rewrite (H1 eq_refl); try rewrite (H2 eq_refl);
    try rewrite (H3 eq_refl); try rewrite (H4 eq_refl);
    destruct (any_in emi_words T), (any_in budget_words T),
      (any_in compare_words T), (any_in search_words T);
    repeat split; intros; try discriminate; try reflexivity;
    vm_compute; lia.
Qed.
End MoreIntentFacts.

Example query_case_is_ignored_witness :
  detect_intent sample_ucd (text "FIND Alto")
  = detect_intent sample_ucd (text "find alto")
  /\ get_car_by_name sample_ucd [maruti_alto; alto_guide] (text "FIND Alto")
     = get_car_by_name sample_ucd [maruti_alto; alto_guide] (text "find alto").
Proof.
  apply (query_case_is_ignored sample_ucd [maruti_alto; alto_guide]
           (text "FIND Alto") (text "find alto")).
  apply map_ascii_lower_same. reflexivity.
Defined.

Example longer_text_keeps_priority_witness :
  detect_intent sample_ucd
    (text "please compare the " ++ text "emi" ++ text " of two cars")%list
  = text "emi_calculation"
  /\ detect_intent sample_ucd (text "hello") = text "general_info".
Proof.
  split.
  - apply (longer_text_keeps_priority sample_ucd (text "please compare the ")
             (text "emi") (text " of two cars")).
    reflexivity.
  - apply (longer_text_keeps_priority sample_ucd [] (text "hello")
             (text " there")).
    reflexivity.
Defined.

(* ================================================================== *)
(** ** Further properties of the catalog tools *)

Section MoreCatalogFacts.
Open Scope string_scope.
Open Scope list_scope.
Variable db : ucd.

Lemma first_named_In (lowered : pystr) (cars : list CarRecord) (car : CarRecord) :
  first_named db lowered cars = Some car ->
  In car cars /\ str_in lowered (lower db (name car)) = true.
Proof.
  induction cars as [|x rest IH]; simpl; [discriminate |].
  destruct (str_in lowered (lower db (name x))) eqn:E.
  - intros [= <-]. now split; [left |].
  - intros H. destruct (IH H). now split; [right |].
Qed.

Lemma first_named_None (lowered : pystr) (cars : list CarRecord) :
  first_named db lowered cars = None <->
  forall c, In c cars -> str_in lowered (lower db (name c)) = false.
Proof.
  induction cars as [|x rest IH]; simpl.
  - split; [intros _ c [] | reflexivity].
  - destruct (str_in lowered (lower db (name x))) eqn:E.
    + split; [discriminate |]. intros H. rewrite (H x (or_introl eq_refl)) in E.
      discriminate.
    + rewrite IH. split.
      * intros H c [<- | Hc]; [exact E | now apply H].
      * intros H c Hc. apply H. now right.
Qed.

Lemma first_named_app (lowered : pystr) (cars more : list CarRecord) :
  first_named db lowered (cars ++ more)
  = match first_named db lowered cars with
    | Some car => Some car
    | None => first_named db lowered more
    end.
Proof.
  induction cars as [|x rest IH]; simpl; [reflexivity |].
  now destruct (str_in lowered (lower db (name x))).
Qed.

(** X3. Every record of the catalog is reached through its own name: the
    lookup of the name never fails; it finds a record whose lower-cased name
    contains the lower-cased name sought, and finds the record itself when
    no other record's does. *)
Theorem get_car_by_name_own_name (cars_data : list CarRecord) (car : CarRecord) :
  In car cars_data ->
  exists found,
    get_car_by_name db cars_data (name car) = Some found
    /\ In found cars_data
    /\ str_in (lower db (name car)) (lower db (name found)) = true
    /\ ((forall c, In c cars_data ->
           str_in (lower db (name car)) (lower db (name c)) = true -> c = car) ->
        found = car).
Proof.
  intros Hin. unfold get_car_by_name.
  destruct (first_named db (lower db (name car)) cars_data) as [found|] eqn:E.
  - destruct (first_named_In _ _ _ E) as [Hfound Hmatch].
    exists found. repeat split; [exact Hfound | exact Hmatch |].
    intros Huniq. now apply Huniq.
  - rewrite first_named_None in E. specialize (E car Hin).
    rewrite str_in_refl in E. discriminate.
Qed.

(** X4. An ASCII query that occurs in a second query, up to the case of
    its letters, finds a record whenever the second does, and no later in
    the catalog: before the record it returns, the second query finds
    nothing. *)
Theorem get_car_by_name_shorter_query (cars_data : list CarRecord)
    (q q' : pystr) (car' : CarRecord) :
  is_ascii q = true ->
  contains_ignoring_case q q' ->
  get_car_by_name db cars_data q' = Some car' ->
  exists car before after,
    get_car_by_name db cars_data q = Some car
    /\ cars_data = before ++ car :: after
    /\ get_car_by_name db before q' = None.
Proof.
  intros Hq Hcont. pose proof (lower_contains db q q' Hq Hcont) as Hsub.
  unfold get_car_by_name.
  induction cars_data as [|x rest IH]; simpl; [discriminate |].
  destruct (str_in (lower db q) (lower db (name x))) eqn:Eq.
  - intros _. now exists x, [], rest.
  - destruct (str_in (lower db q') (lower db (name x))) eqn:Eq'.
    + rewrite (str_in_trans _ _ _ Hsub Eq') in Eq. discriminate.
    + intros H. destruct (IH H) as (car & before & after & Hcar & -> & Hnone).
      exists car, (x :: before), after. simpl. now rewrite Eq'.
Qed.

(** X5. Records added at the end of the catalog change no lookup that
    succeeded and are searched only when it failed; the budget filter of
    the longer catalog is the filter of the old one followed by the filter
    of the addition. *)
Theorem catalog_extension (cars_data more : list CarRecord) (q : pystr)
    (max_price : float) :
  get_car_by_name db (cars_data ++ more) q
  = match get_car_by_name db cars_data q with
    | Some car => Some car
    | None => get_car_by_name db more q
    end
  /\ get_cars_by_budget (cars_data ++ more) max_price
     = get_cars_by_budget cars_data max_price
       ++ get_cars_by_budget more max_price.
Proof.
  split; [apply first_named_app | apply filter_app].
Qed.

(** X6. Raising the budget never removes a record: the result for a budget
    is a subsequence of the result for every budget at least as large, and
    is what the smaller budget selects from that result. *)
Theorem get_cars_by_budget_monotone (cars_data : list CarRecord)
    (low high : float) :
  (low <=? high)%float = true ->
  Subseq (get_cars_by_budget cars_data low) (get_cars_by_budget cars_data high)
  /\ get_cars_by_budget (get_cars_by_budget cars_data high) low
     = get_cars_by_budget cars_data low.
Proof.
  intros Hle. unfold get_cars_by_budget.
  assert (Hsame : filter (fun car => (price car <=? low)%float)
                    (filter (fun car => (price car <=? high)%float) cars_data)
                  = filter (fun car => (price car <=? low)%float) cars_data).
  { induction cars_data as [|x rest IH]; simpl; [reflexivity |].
    destruct (price x <=? low)%float eqn:El.
    - rewrite (leb_trans _ _ _ El Hle). simpl. now rewrite El, IH.
    - destruct (price x <=? high)%float; simpl; [rewrite El |]; exact IH. }
  split; [| exact Hsame]. rewrite <- Hsame. apply filter_Subseq.
Qed.

(** X7. A budget that is not a number selects nothing, and a record whose
    price is not a number is selected by no budget. *)
Theorem get_cars_by_budget_nan (cars_data : list CarRecord) (max_price : float) :
  (is_nan max_price = true -> get_cars_by_budget cars_data max_price = [])
  /\ (forall car, In car (get_cars_by_budget cars_data max_price) ->
        is_nan (price car) = false).
Proof.
  unfold get_cars_by_budget. split.
  - intros Hnan. induction cars_data as [|x rest IH]; simpl; [reflexivity |].
    now rewrite (leb_nan_r _ _ Hnan).
  - intros car [_ Hle]%filter_In.
    destruct (is_nan (price car)) eqn:E; [| reflexivity].
    rewrite (leb_nan_l _ max_price E) in Hle. discriminate.
Qed.
End MoreCatalogFacts.

Section MoreCatalogExamples.
Open Scope string_scope.
Open Scope list_scope.

Example get_car_by_name_own_name_witness :
  exists found,
    get_car_by_name sample_ucd [alto_guide; maruti_alto] (text "Maruti Alto")
    = Some found
    /\ In found [alto_guide; maruti_alto]
    /\ str_in (lower sample_ucd (text "Maruti Alto"))
              (lower sample_ucd (name found)) = true
    /\ ((forall c, In c [alto_guide; maruti_alto] ->
           str_in (lower sample_ucd (text "Maruti Alto"))
                  (lower sample_ucd (name c)) = true -> c = maruti_alto) ->
        found = maruti_alto).
Proof.
  apply (get_car_by_name_own_name sample_ucd [alto_guide; maruti_alto]
           maruti_alto).
  simpl. tauto.
Defined.

Example get_car_by_name_shorter_query_witness :
  exists car before after,
    get_car_by_name sample_ucd [maruti_alto; alto_guide] (text "ALTO")
    = Some car
    /\ [maruti_alto; alto_guide] = before ++ car :: after
    /\ get_car_by_name sample_ucd before (text "find alto") = None.
Proof.
  apply (get_car_by_name_shorter_query sample_ucd [maruti_alto; alto_guide]
           (text "ALTO") (text "find alto") alto_guide).
  - reflexivity.
  - exists (text "find "), (text "alto"), [].
    split; [reflexivity |]. apply map_ascii_lower_same. reflexivity.
  - reflexivity.
Defined.

Example get_cars_by_budget_monotone_witness :
  Subseq (get_cars_by_budget [maruti_alto; alto_guide] 100)
         (get_cars_by_budget [maruti_alto; alto_guide] 500000)
  /\ get_cars_by_budget (get_cars_by_budget [maruti_alto; alto_guide] 500000) 100
     = get_cars_by_budget [maruti_alto; alto_guide] 100.
Proof.
  apply (get_cars_by_budget_monotone [maruti_alto; alto_guide] 100 500000).
  reflexivity.
Defined.

Example get_cars_by_budget_nan_witness :
  get_cars_by_budget [maruti_alto; alto_guide] nan = []
  /\ is_nan (price alto_guide) = false.
Proof.
  split.
  - apply (get_cars_by_budget_nan [maruti_alto; alto_guide] nan). reflexivity.
  - apply (proj2 (get_cars_by_budget_nan [maruti_alto; alto_guide] 100)
             alto_guide).
    simpl. now left.
Defined.
End MoreCatalogExamples.

(* ================================================================== *)
(** ** Further properties of the affordability rule *)

Section MoreSafetyFacts.
Open Scope float_scope.

Lemma approved_with_income (emi income : float) :
  approved (apply_safety_rules emi (Some income)) = (emi <=? income / 12 * 0.3).
Proof.
  unfold apply_safety_rules. now destruct (emi <=? income / 12 * 0.3).
Qed.

(** X8. A smaller installment keeps an approval: what is approved at an
    installment is approved at every installment not above it, for the
    same income or absence of income. *)
Theorem apply_safety_rules_monotone (emi emi' : float) (income : option float) :
  (emi' <=? emi) = true ->
  approved (apply_safety_rules emi income) = true ->
  approved (apply_safety_rules emi' income) = true.
Proof.
  intros Hle. destruct income as [income|]; [| reflexivity].
  rewrite !approved_with_income. intros H. exact (leb_trans _ _ _ Hle H).
Qed.

Example apply_safety_rules_monotone_witness :
  approved (apply_safety_rules 9000 (Some 600000)) = true.
Proof.
  apply (apply_safety_rules_monotone 15000 9000 (Some 600000)); reflexivity.
Defined.

(** X9. With an income given, an installment that is not a number is
    rejected, and so is every installment when the income is not a number;
    without an income the same installment is approved. *)
Theorem apply_safety_rules_nan (emi income : float) :
  (is_nan emi = true ->
   approved (apply_safety_rules emi (Some income)) = false
   /\ approved (apply_safety_rules emi None) = true)
  /\ (is_nan income = true ->
      approved (apply_safety_rules emi (Some income)) = false).
Proof.
  rewrite approved_with_income. split.
  - intros H. split; [now apply leb_nan_l | reflexivity].
  - intros ->%is_nan_eq. apply leb_nan_r. reflexivity.
Qed.

Example apply_safety_rules_nan_witness :
  (approved (apply_safety_rules nan (Some 600000)) = false
   /\ approved (apply_safety_rules nan None) = true)
  /\ approved (apply_safety_rules 100 (Some nan)) = false.
Proof.
  split.
  - apply (apply_safety_rules_nan nan 600000). reflexivity.
  - apply (apply_safety_rules_nan 100 nan). reflexivity.
Defined.
End MoreSafetyFacts.

(* ================================================================== *)
(** ** Rounding does not lose a product with 12 *)

Section FloatRoundingFacts.
Open Scope Z_scope.

(** The number of binary digits, as the rounding of [SpecFloat] counts
    them, and how a shift to the right changes it. *)
Lemma digits2_pos_size (p : positive) : digits2_pos p = Pos.size p.
Proof. induction p; simpl; congruence. Qed.

Lemma Zdigits2_log2 (p : positive) : Zdigits2 (Zpos p) = Z.log2 (Zpos p) + 1.
Proof.
  unfold Zdigits2. rewrite digits2_pos_size.
  destruct p; simpl; rewrite ?Pos.add_1_r; try reflexivity; lia.
Qed.

Lemma shr_1_digits (s : shr_record) :
  0 <= shr_m s ->
  0 <= shr_m (shr_1 s) /\ Zdigits2 (shr_m (shr_1 s)) = Z.max 0 (Zdigits2 (shr_m s) - 1).
Proof.
  destruct s as [m r t]. cbn [shr_m]. intros Hm.
  destruct m as [|p|p]; [cbn; lia | | lia].
  destruct p; cbn [shr_1 shr_m Zdigits2 digits2_pos];
    rewrite ?Pos2Z.inj_succ; lia.
Qed.

Lemma shr_iter_digits (p : positive) (s : shr_record) :
  0 <= shr_m s ->
  0 <= shr_m (iter_pos shr_1 p s)
  /\ Zdigits2 (shr_m (iter_pos shr_1 p s)) = Z.max 0 (Zdigits2 (shr_m s) - Zpos p).
Proof.
  revert s. induction p as [p IH|p IH|]; intros s Hs; simpl.
  - destruct (shr_1_digits s Hs) as [H1 E1].
    destruct (IH _ H1) as [H2 E2]. destruct (IH _ H2) as [H3 E3].
    split; [exact H3 |]. rewrite E3, E2, E1. lia.
  - destruct (IH _ Hs) as [H2 E2]. destruct (IH _ H2) as [H3 E3].
    split; [exact H3 |]. rewrite E3, E2. lia.
  - apply shr_1_digits, Hs.
Qed.

Lemma Zdigits2_pos_iff (z : Z) : 0 <= z -> (1 <= Zdigits2 z <-> 0 < z).
Proof. destruct z; simpl; lia. Qed.


Lemma shr_fexp_keeps (m e : Z) (l : location) :
  0 < m -> (-1074) < Zdigits2 m + e ->
  let '(mrs, e') := shr_fexp prec emax m e l in
  0 < shr_m mrs /\ (-1074) <= e'.
Proof.
  intros Hm Hd. unfold shr_fexp, shr.
  assert (Hdig : 1 <= Zdigits2 m) by (apply Zdigits2_pos_iff; lia).
  set (d := Zdigits2 m) in *.
  unfold fexp. change (SpecFloat.emin prec emax) with (-1074)%Z.
  destruct (Z.max (d + e - prec) (-1074) - e) as [|p|p] eqn:En.
  - split; [destruct l as [|[]]; exact Hm | lia].
  - assert (Hs : 0 <= shr_m (shr_record_of_loc m l))
      by (destruct l as [|[]]; simpl; lia).
    destruct (shr_iter_digits p _ Hs) as [H0 E].
    assert (Hsm : shr_m (shr_record_of_loc m l) = m) by (destruct l as [|[]]; reflexivity).
    rewrite Hsm in E. fold d in E.
    split; [| lia].
    apply Zdigits2_pos_iff; [exact H0 |]. rewrite E. change prec with 53 in *. lia.
  - split; [destruct l as [|[]]; exact Hm | lia].
Qed.

Lemma round_nearest_even_pos (m : Z) (l : location) :
  0 < m -> 0 < round_nearest_even m l.
Proof. intros H. destruct l as [|[]]; simpl; try lia. destruct (Z.even m); lia. Qed.

Lemma binary_round_aux_nonzero (s : bool) (m e : Z) :
  0 < m -> (-1074) < Zdigits2 m + e ->
  forall s', binary_round_aux prec emax s m e loc_Exact <> S754_zero s'.
Proof.
  intros Hm Hd s'. unfold binary_round_aux.
  pose proof (shr_fexp_keeps m e loc_Exact Hm Hd) as H1.
  destruct (shr_fexp prec emax m e loc_Exact) as [mrs' e'].
  destruct H1 as [Hm1 He1].
  pose proof (round_nearest_even_pos (shr_m mrs') (loc_of_shr_record mrs') Hm1) as Hr.
  set (m1 := round_nearest_even (shr_m mrs') (loc_of_shr_record mrs')) in *.
  assert (Hd1 : (-1074) < Zdigits2 m1 + e').
  { assert (1 <= Zdigits2 m1) by (apply Zdigits2_pos_iff; lia). lia. }
  pose proof (shr_fexp_keeps m1 e' loc_Exact Hr Hd1) as H2.
  destruct (shr_fexp prec emax m1 e' loc_Exact) as [mrs'' e''].
  destruct H2 as [Hm2 _].
  destruct (shr_m mrs''); [lia | | discriminate].
  destruct (e'' <=? emax - prec); discriminate.
Qed.
End FloatRoundingFacts.

Section FloatProductFacts.
Open Scope float_scope.

Lemma valid_exponent_bound (s : bool) (m : positive) (e : Z) :
  valid_binary (S754_finite s m e) = true -> ((-1074) <= e)%Z.
Proof.
  unfold valid_binary, bounded, canonical_mantissa, fexp.
  change (SpecFloat.emin prec emax) with (-1074)%Z.
  intros [H _]%andb_prop. apply Z.eqb_eq in H. lia.
Qed.

Lemma times_twelve_nonzero (t : float) : (t =? 0) = false -> (t * 12 =? 0) = false.
Proof.
  rewrite !eqb_spec, mul_spec.
  pose proof (Prim2SF_valid t) as Hvalid.
  change (Prim2SF 12) with (S754_finite false 6755399441055744 (-49)).
  change (Prim2SF 0) with (S754_zero false).
  destruct (Prim2SF t) as [s|s| |s m e]; try destruct s; try reflexivity;
    try discriminate; intros _.
  all: apply valid_exponent_bound in Hvalid.
  all: unfold SF64mul, SFmul.
  all: match goal with
       | |- SFeqb (binary_round_aux _ _ ?sg (Zpos ?mm) ?ee _) _ = false =>
           pose proof (binary_round_aux_nonzero sg (Zpos mm) ee) as Hnz
       end.
  all: match type of Hnz with
       | _ -> ?P -> _ =>
           assert (Hd : P);
             [ rewrite Zdigits2_log2, Pos2Z.inj_mul;
               pose proof (Z.log2_mul_below (Zpos m) 6755399441055744
                             ltac:(lia) ltac:(lia)) as Hlog;
               change (Z.log2 6755399441055744) with 52%Z in Hlog;
               pose proof (Z.log2_nonneg (Zpos m));
               lia
             | specialize (Hnz ltac:(lia) Hd) ]
       end.
  all: destruct (binary_round_aux _ _ _ _ _ _) as [s'|s'| |s' m' e'];
    try destruct s'; try reflexivity; exfalso; eapply Hnz; reflexivity.
Qed.
End FloatProductFacts.

(* ================================================================== *)
(** ** Further properties of the EMI calculator *)

Section MoreEmiFacts.
Open Scope float_scope.
Variable libm_pow : float -> float -> float * c_errno.

(** X10. A tenure that compares equal to zero, of either sign, ends in
    [ZeroDivisionError] at every principal and every rate, NaN included. *)
Theorem calculate_emi_zero_tenure (principal annual_rate tenure_years : float) :
  (tenure_years =? 0) = true ->
  calculate_emi libm_pow principal annual_rate tenure_years
  = Raises ZeroDivisionError.
Proof.
  intros [-> | ->]%eqb_zero; [apply zero_tenure_divides_by_zero |].
  unfold calculate_emi, unrounded_emi, compound_emi.
  destruct (annual_rate / 12 / 100 =? 0); reflexivity.
Qed.

(** X11. An interest-free loan: at a rate that compares equal to zero and
    a tenure that does not, a result is returned, and without the C
    library's [pow]; the number of months is not zero either, the
    installment is the rounded quotient of principal and months, and the
    other two fields are rounded from the unrounded quotient. *)
Theorem calculate_emi_zero_rate (principal annual_rate tenure_years : float) :
  (annual_rate =? 0) = true ->
  (tenure_years =? 0) = false ->
  let emi := principal / (tenure_years * 12) in
  (tenure_years * 12 =? 0) = false
  /\ calculate_emi libm_pow principal annual_rate tenure_years
     = Returns {| emi_amount := round2 emi;
                  total_payment := round2 (emi * (tenure_years * 12));
                  total_interest :=
                    round2 (emi * (tenure_years * 12) - principal) |}.
Proof.
  intros Hrate Htenure emi.
  pose proof (times_twelve_nonzero _ Htenure) as Hmonths.
  split; [exact Hmonths |].
  unfold calculate_emi, unrounded_emi, py_div.
  assert (Hzero : (annual_rate / 12 / 100 =? 0) = true)
    by (destruct (eqb_zero _ Hrate) as [-> | ->]; reflexivity).
  now rewrite Hzero, Hmonths.
Qed.

End MoreEmiFacts.

Example calculate_emi_zero_tenure_witness :
  calculate_emi reference_pow 100000 9.5 (-0) = Raises ZeroDivisionError.
Proof.
  apply (calculate_emi_zero_tenure reference_pow 100000 9.5 (-0)). reflexivity.
Defined.

Example calculate_emi_zero_rate_witness :
  (1 * 12 =? 0)%float = false
  /\ calculate_emi reference_pow 120000 (-0) 1
     = Returns {| emi_amount := round2 (120000 / (1 * 12));
                  total_payment := round2 (120000 / (1 * 12) * (1 * 12));
                  total_interest :=
                    round2 (120000 / (1 * 12) * (1 * 12) - 120000) |}.
Proof.
  apply (calculate_emi_zero_rate reference_pow 120000 (-0) 1); reflexivity.
Defined.

(* ================================================================== *)
(** ** Further properties of the dispatcher *)

Section MoreDispatchFacts.
Open Scope string_scope.
Open Scope list_scope.
Variable db : ucd.
Variable cars_data : list CarRecord.
Variable libm_pow : float -> float -> float * c_errno.

(** A response, taken apart by the branch that built it. *)
Lemma process_user_query_inv (q : UserQuery) (r : QueryResult) :
  process_user_query db cars_data libm_pow q = Returns r ->
  let i := detect_intent db (query q) in
  intent r = i
  /\ user_query r = query q
  /\ recommended_action r
     = text "Processed "
       ++ replace_char (N_of_ascii "_") (N_of_ascii " ") i
       ++ text " successfully"
  /\ ((i = text "emi_calculation"
       /\ exists emi,
            calculate_emi libm_pow (or_default (max_budget q) 1500000) 9.5 5
            = Returns emi
            /\ tool_output r = ToolEMI emi
            /\ safety_check r
               = apply_safety_rules (emi_amount emi) (user_income q))
      \/ (i = text "budget_search"
          /\ tool_output r
             = ToolCars (get_cars_by_budget cars_data
                           (or_default (max_budget q) 2000000))
          /\ safety_check r
             = {| approved := true; message := BudgetSearchCompleted |})
      \/ (i = text "car_comparison"
          /\ tool_output r
             = ToolMessage (text "Comparison feature coming in Day 4")
          /\ safety_check r = {| approved := true; message := ComparisonReady |})
      \/ (i = text "car_search"
          /\ tool_output r = ToolCar (get_car_by_name db cars_data (query q))
          /\ safety_check r = {| approved := true; message := CarFound |})
      \/ (i = text "general_info"
          /\ tool_output r = ToolCount (List.length cars_data)
          /\ safety_check r = {| approved := true; message := GeneralInfo |})).
Proof.
  intros H i. unfold process_user_query in H. fold i in H.
  pose proof (detect_intent_cases db (query q)) as Hi. fold i in Hi.
  simpl in Hi.
  destruct Hi as [Hi | [Hi | [Hi | [Hi | [Hi | []]]]]]; rewrite <- Hi in *;
    simpl in H.
  - destruct (calculate_emi libm_pow _ 9.5 5) as [emi|e] eqn:E;
      simpl in H; [| discriminate].
    injection H as <-. simpl. repeat split. left. split; [reflexivity |].
    exists emi. repeat split.
  - injection H as <-. simpl. repeat split. right. left. repeat split.
  - injection H as <-. simpl. repeat split. do 2 right. left. repeat split.
  - injection H as <-. simpl. repeat split. do 3 right. left. repeat split.
  - injection H as <-. simpl. repeat split. do 4 right. repeat split.
Qed.

(** Outside the EMI branch the response is built without [calculate_emi]
    and without the income. *)
Lemma process_user_query_non_emi (q : UserQuery) :
  detect_intent db (query q) <> text "emi_calculation" ->
  exists r,
    approved (safety_check r) = true
    /\ forall pow income,
         process_user_query db cars_data pow (with_income income q) = Returns r.
Proof.
  intros Hi. unfold process_user_query, with_income. simpl.
  pose proof (detect_intent_cases db (query q)) as Hc. simpl in Hc.
  destruct Hc as [Hc | [Hc | [Hc | [Hc | [Hc | []]]]]];
    [now symmetry in Hc |..]; rewrite <- Hc; simpl;
    eexists; (split; [| intros pow income; reflexivity]); reflexivity.
Qed.

Lemma search_intent_has_keyword (query_text : pystr) :
  detect_intent db query_text = text "car_search" ->
  any_in search_words (lower db query_text) = true.
Proof.
  unfold detect_intent.
  destruct (any_in emi_words (lower db query_text)); [discriminate |].
  destruct (any_in budget_words (lower db query_text)); [discriminate |].
  destruct (any_in compare_words (lower db query_text)); [discriminate |].
  now destruct (any_in search_words (lower db query_text)).
Qed.

(** X12. The shape of the tool output is the one of the intent: an EMI
    result for [emi_calculation], a list of records for [budget_search], a
    message for [car_comparison], an optional record for [car_search] and a
    count for [general_info]. *)
Theorem tool_output_shape (q : UserQuery) (r : QueryResult) :
  process_user_query db cars_data libm_pow q = Returns r ->
  shape_intent (tool_output r) = intent r.
Proof.
  intros H. destruct (process_user_query_inv q r H) as (-> & _ & _ & Hb).
  destruct Hb as [(-> & emi & _ & -> & _) | [(-> & -> & _) | [(-> & -> & _)
                 | [(-> & -> & _) | (-> & -> & _)]]]]; reflexivity.
Qed.

(** X13. Only the EMI branch rejects, and only against an income: a
    response that is not approved is an [emi_calculation] of a request with
    an income, and the rounded installment is not at most 30 percent of the
    monthly income. *)
Theorem rejection_needs_income (q : UserQuery) (r : QueryResult) :
  process_user_query db cars_data libm_pow q = Returns r ->
  approved (safety_check r) = false ->
  intent r = text "emi_calculation"
  /\ exists emi income,
       tool_output r = ToolEMI emi
       /\ user_income q = Some income
       /\ (emi_amount emi <=? income / 12 * 0.3)%float = false
       /\ message (safety_check r)
          = RiskyEMI (emi_amount emi) (income / 12 * 0.3)%float.
Proof.
  intros H Hrej. destruct (process_user_query_inv q r H) as (-> & _ & _ & Hb).
  destruct Hb as [(-> & emi & _ & Htool & Hsafe) | [(_ & _ & Hsafe)
                 | [(_ & _ & Hsafe) | [(_ & _ & Hsafe) | (_ & _ & Hsafe)]]]];
    rewrite Hsafe in Hrej; try discriminate.
  split; [reflexivity |]. rewrite Hsafe.
  destruct (user_income q) as [income|]; [| discriminate].
  exists emi, income. unfold apply_safety_rules in *.
  destruct (emi_amount emi <=? income / 12 * 0.3)%float; [discriminate |].
  repeat split. exact Htool.
Qed.

(** X14. A request that is not an EMI request is always answered and
    approved, and its response depends neither on the income nor on the C
    library. *)
Theorem non_emi_request_answered (q : UserQuery) :
  detect_intent db (query q) <> text "emi_calculation" ->
  exists r,
    process_user_query db cars_data libm_pow q = Returns r
    /\ approved (safety_check r) = true
    /\ forall pow income,
         process_user_query db cars_data pow (with_income income q) = Returns r.
Proof.
  intros Hi. destruct (process_user_query_non_emi q Hi) as (r & Happ & Hall).
  exists r. repeat split; [| exact Happ | exact Hall].
  specialize (Hall libm_pow (user_income q)).
  now destruct q.
Qed.

(** X15. A budget of zero, of either sign, is handled as an absent budget
    by every branch. *)
Theorem zero_budget_is_absent (q : UserQuery) (b : float) :
  max_budget q = Some b ->
  (b =? 0)%float = true ->
  process_user_query db cars_data libm_pow q
  = process_user_query db cars_data libm_pow (with_budget None q).
Proof.
  intros Hb Hz. unfold process_user_query, with_budget. simpl.
  rewrite Hb. unfold or_default. now rewrite Hz.
Qed.

(** X16. What a car search returns: a record is returned only if its
    lower-cased name contains the whole lower-cased query, and hence one of
    the words "find", "show" and "which"; between an ASCII query and an
    ASCII name that is containment of the query up to the case of the
    letters. *)
Theorem car_search_returns_keyword_names (q : UserQuery) (r : QueryResult)
    (car : CarRecord) :
  process_user_query db cars_data libm_pow q = Returns r ->
  tool_output r = ToolCar (Some car) ->
  intent r = text "car_search"
  /\ In car cars_data
  /\ str_in (lower db (query q)) (lower db (name car)) = true
  /\ any_in search_words (lower db (name car)) = true
  /\ (is_ascii (query q) = true -> is_ascii (name car) = true ->
      contains_ignoring_case (query q) (name car)).
Proof.
  intros H Htool. destruct (process_user_query_inv q r H) as (Hi & _ & _ & Hb).
  destruct Hb as [(_ & emi & _ & Ht & _) | [(_ & Ht & _) | [(_ & Ht & _)
                 | [(Hs & Ht & _) | (_ & Ht & _)]]]];
    rewrite Ht in Htool; try discriminate.
  injection Htool as Hfound. unfold get_car_by_name in Hfound.
  destruct (first_named_In db _ _ _ Hfound) as [Hin Hmatch].
  split; [congruence |]. split; [exact Hin |]. split; [exact Hmatch |]. split.
  - apply search_intent_has_keyword, any_in_spec in Hs.
    destruct Hs as (w & Hw & Hwq). apply any_in_spec. exists w.
    split; [exact Hw | exact (str_in_trans _ _ _ Hwq Hmatch)].
  - intros Hq Hn. now apply (str_in_lower_ascii db _ _ Hq Hn).
Qed.

(** X17. What a budget search returns: the records of the catalog, in
    catalog order, priced at most [max_budget], and at most 2,000,000 when
    the budget is absent or zero; the response is approved. *)
Theorem budget_search_response (q : UserQuery) :
  detect_intent db (query q) = text "budget_search" ->
  let threshold :=
    match max_budget q with
    | Some b => if (b =? 0)%float then 2000000%float else b
    | None => 2000000%float
    end in
  exists cars,
    process_user_query db cars_data libm_pow q
    = Returns {| intent := text "budget_search";
                 user_query := query q;
                 tool_output := ToolCars cars;
                 safety_check :=
                   {| approved := true; message := BudgetSearchCompleted |};
                 recommended_action :=
                   text "Processed budget search successfully" |}
    /\ Subseq cars cars_data
    /\ forall car, In car cars <->
         In car cars_data /\ (price car <=? threshold)%float = true.
Proof.
  intros Hi threshold. unfold process_user_query. rewrite Hi. simpl.
  eexists. split; [reflexivity |]. unfold get_cars_by_budget.
  split; [apply filter_Subseq | intros car; apply filter_In].
Qed.

(** X18. The EMI branch reads neither the catalog nor the query text beyond
    its classification: two EMI requests with the same income and budget
    get the same tool output and verdict, or raise the same error, whatever
    the catalogs and the texts are. *)
Theorem emi_branch_ignores_text_and_catalog (cars2 : list CarRecord)
    (q1 q2 : UserQuery) :
  detect_intent db (query q1) = text "emi_calculation" ->
  detect_intent db (query q2) = text "emi_calculation" ->
  user_income q1 = user_income q2 ->
  max_budget q1 = max_budget q2 ->
  payload (process_user_query db cars_data libm_pow q1)
  = payload (process_user_query db cars2 libm_pow q2).
Proof.
  intros H1 H2 Hincome Hbudget.
  rewrite (emi_branch_result db cars_data libm_pow q1 H1).
  rewrite (emi_branch_result db cars2 libm_pow q2 H2).
  rewrite Hincome, Hbudget.
  now destruct (calculate_emi libm_pow _ 9.5 5).
Qed.

(** X19. The status sentence of a response is one of five fixed sentences,
    the one of its intent with the underscore replaced by a space. *)
Theorem recommended_action_sentence (q : UserQuery) (r : QueryResult) :
  process_user_query db cars_data libm_pow q = Returns r ->
  recommended_action r
  = text "Processed "
    ++ replace_char (N_of_ascii "_") (N_of_ascii " ") (intent r)
    ++ text " successfully"
  /\ str_in (text "_") (recommended_action r) = false
  /\ In (recommended_action r)
        [text "Processed emi calculation successfully";
         text "Processed budget search successfully";
         text "Processed car comparison successfully";
         text "Processed car search successfully";
         text "Processed general info successfully"].
Proof.
  intros H.
  destruct (process_user_query_inv q r H) as (-> & _ & -> & _).
  pose proof (detect_intent_cases db (query q)) as Hi. simpl in Hi.
  destruct Hi as [Hi | [Hi | [Hi | [Hi | [Hi | []]]]]]; rewrite <- Hi;
    (split; [reflexivity |]); (split; [reflexivity |]); simpl; tauto.
Qed.

(** X20. [GET /car/{name}] answers with the error dictionary exactly when no
    lower-cased name of the catalog contains the lower-cased [name], which
    between ASCII texts means that no name contains [name] when the case of
    the letters is ignored; a record it answers with is in the catalog; and
    the name of a catalog record is never answered with the error. *)
Theorem test_car_not_found (name_sought : pystr) :
  (test_car db cars_data name_sought = CarNotFound <->
   forall c, In c cars_data ->
     str_in (lower db name_sought) (lower db (name c)) = false)
  /\ (is_ascii name_sought = true ->
      (forall c, In c cars_data -> is_ascii (name c) = true) ->
      (test_car db cars_data name_sought = CarNotFound <->
       forall c, In c cars_data -> ~ contains_ignoring_case name_sought (name c)))
  /\ (forall car, test_car db cars_data name_sought = CarPayload car ->
        In car cars_data
        /\ str_in (lower db name_sought) (lower db (name car)) = true)
  /\ (forall car, In car cars_data ->
        test_car db cars_data (name car) <> CarNotFound).
Proof.
  assert (Hnone : test_car db cars_data name_sought = CarNotFound <->
                  forall c, In c cars_data ->
                    str_in (lower db name_sought) (lower db (name c)) = false).
  { unfold test_car, get_car_by_name. rewrite <- first_named_None.
    destruct (first_named db (lower db name_sought) cars_data);
      split; congruence. }
  split; [exact Hnone |]. split; [| split].
  - intros Hq Hnames. rewrite Hnone. split; intros H c Hc.
    + intros Hci%(lower_contains db _ _ Hq). rewrite (H c Hc) in Hci.
      discriminate.
    + destruct (str_in (lower db name_sought) (lower db (name c))) eqn:E;
        [| reflexivity].
      apply (str_in_lower_ascii db _ _ Hq (Hnames c Hc)) in E.
      now destruct (H c Hc).
  - intros car. unfold test_car, get_car_by_name.
    destruct (first_named db (lower db name_sought) cars_data) as [found|] eqn:E;
      [| discriminate].
    intros [= <-]. now apply (first_named_In db _ _ _ E).
  - intros car Hin. unfold test_car, get_car_by_name.
    destruct (first_named db (lower db (name car)) cars_data) eqn:E;
      [discriminate |].
    rewrite first_named_None in E. specialize (E car Hin).
    rewrite str_in_refl in E. discriminate.
Qed.
End MoreDispatchFacts.

Section MoreExamples.
Open Scope string_scope.
Open Scope list_scope.

Example tool_output_shape_witness :
  shape_intent (ToolCar None) = text "car_search".
Proof.
  apply (tool_output_shape sample_ucd [maruti_alto] reference_pow find_alto
           {| intent := text "car_search";
              user_query := text "find alto";
              tool_output := ToolCar None;
              safety_check := {| approved := true; message := CarFound |};
              recommended_action :=
                text "Processed car search successfully" |}).
  reflexivity.
Defined.

Example rejection_needs_income_witness :
  text "emi_calculation" = text "emi_calculation"
  /\ exists emi income,
       ToolEMI {| emi_amount := 31502.79; total_payment := 1890167.52;
                  total_interest := 390167.52 |} = ToolEMI emi
       /\ user_income emi_for_car = Some income
       /\ (emi_amount emi <=? income / 12 * 0.3)%float = false
       /\ RiskyEMI 31502.79 15000
          = RiskyEMI (emi_amount emi) (income / 12 * 0.3)%float.
Proof.
  apply (rejection_needs_income sample_ucd [maruti_alto] reference_pow
           emi_for_car
           {| intent := text "emi_calculation";
              user_query := text "emi for car";
              tool_output :=
                ToolEMI {| emi_amount := 31502.79; total_payment := 1890167.52;
                           total_interest := 390167.52 |};
              safety_check :=
                {| approved := false; message := RiskyEMI 31502.79 15000 |};
              recommended_action :=
                text "Processed emi calculation successfully" |}).
  - vm_compute. reflexivity.
  - reflexivity.
Defined.

Example non_emi_request_answered_witness :
  exists r,
    process_user_query sample_ucd [maruti_alto] reference_pow find_alto
    = Returns r
    /\ approved (safety_check r) = true
    /\ forall pow income,
         process_user_query sample_ucd [maruti_alto] pow
           (with_income income find_alto)
         = Returns r.
Proof.
  apply (non_emi_request_answered sample_ucd [maruti_alto] reference_pow
           find_alto).
  discriminate.
Defined.

Example zero_budget_is_absent_witness :
  process_user_query sample_ucd [maruti_alto; alto_guide] reference_pow
    {| query := text "budget cars"; user_income := None;
       max_budget := Some (-0)%float |}
  = process_user_query sample_ucd [maruti_alto; alto_guide] reference_pow
      {| query := text "budget cars"; user_income := None;
         max_budget := None |}.
Proof.
  apply (zero_budget_is_absent sample_ucd [maruti_alto; alto_guide]
           reference_pow
           {| query := text "budget cars"; user_income := None;
              max_budget := Some (-0)%float |} (-0)%float); reflexivity.
Defined.

Example car_search_returns_keyword_names_witness :
  text "car_search" = text "car_search"
  /\ In alto_guide [maruti_alto; alto_guide]
  /\ str_in (lower sample_ucd (query find_alto))
            (lower sample_ucd (name alto_guide)) = true
  /\ any_in search_words (lower sample_ucd (name alto_guide)) = true
  /\ (is_ascii (query find_alto) = true -> is_ascii (name alto_guide) = true ->
      contains_ignoring_case (query find_alto) (name alto_guide)).
Proof.
  apply (car_search_returns_keyword_names sample_ucd [maruti_alto; alto_guide]
           reference_pow find_alto
           {| intent := text "car_search";
              user_query := text "find alto";
              tool_output := ToolCar (Some alto_guide);
              safety_check := {| approved := true; message := CarFound |};
              recommended_action :=
                text "Processed car search successfully" |}
           alto_guide); reflexivity.
Defined.

Example budget_search_response_witness :
  exists cars,
    process_user_query sample_ucd [maruti_alto; alto_guide] reference_pow
      {| query := text "cars under 5 lakhs"; user_income := None;
         max_budget := Some 500000%float |}
    = Returns {| intent := text "budget_search";
                 user_query := text "cars under 5 lakhs";
                 tool_output := ToolCars cars;
                 safety_check :=
                   {| approved := true; message := BudgetSearchCompleted |};
                 recommended_action :=
                   text "Processed budget search successfully" |}
    /\ Subseq cars [maruti_alto; alto_guide]
    /\ forall car, In car cars <->
         In car [maruti_alto; alto_guide]
         /\ (price car <=? 500000)%float = true.
Proof.
  apply (budget_search_response sample_ucd [maruti_alto; alto_guide]
           reference_pow
           {| query := text "cars under 5 lakhs"; user_income := None;
              max_budget := Some 500000%float |}).
  reflexivity.
Defined.

Example emi_branch_ignores_text_and_catalog_witness :
  payload (process_user_query sample_ucd [] reference_pow
             {| query := text "emi"; user_income := Some 600000%float;
                max_budget := None |})
  = payload (process_user_query sample_ucd [maruti_alto] reference_pow
               emi_for_car).
Proof.
  apply (emi_branch_ignores_text_and_catalog sample_ucd [] reference_pow
           [maruti_alto]
           {| query := text "emi"; user_income := Some 600000%float;
              max_budget := None |} emi_for_car); reflexivity.
Defined.

Example recommended_action_sentence_witness :
  text "Processed car search successfully"
  = text "Processed "
    ++ replace_char (N_of_ascii "_") (N_of_ascii " ") (text "car_search")
    ++ text " successfully"
  /\ str_in (text "_") (text "Processed car search successfully") = false
  /\ In (text "Processed car search successfully")
        [text "Processed emi calculation successfully";
         text "Processed budget search successfully";
         text "Processed car comparison successfully";
         text "Processed car search successfully";
         text "Processed general info successfully"].
Proof.
  apply (recommended_action_sentence sample_ucd [maruti_alto] reference_pow
           find_alto
           {| intent := text "car_search";
              user_query := text "find alto";
              tool_output := ToolCar None;
              safety_check := {| approved := true; message := CarFound |};
              recommended_action :=
                text "Processed car search successfully" |}).
  reflexivity.
Defined.

Example test_car_not_found_witness :
  test_car sample_ucd [alto_guide; maruti_alto] (text "ALTO 800") = CarNotFound
  <-> forall c, In c [alto_guide; maruti_alto] ->
        ~ contains_ignoring_case (text "ALTO 800") (name c).
Proof.
  apply (proj1 (proj2 (test_car_not_found sample_ucd [alto_guide; maruti_alto]
                         (text "ALTO 800")))).
  - reflexivity.
  - intros c [<- | [<- | []]]; reflexivity.
Defined.
End MoreExamples.
